(** * Censai: recurrent block, encoding stage and RIM training script

    A shallow embedding of
      - censai/models/layers/conv_gru_component.py       (ConvGRUBlock)
      - censai/models/layers/conv_gru_plus_component.py  (ConvGRUPlusBlock)
      - censai/models/layers/conv_encoding_layer.py      (ConvEncodingLayer)
      - scripts/train_rim.py                             (loss weights, train_step, epoch loop)

    Tensors are a static shape together with a map from indices to values.
    Floating point values of the loss are idealised as real numbers; the
    scalars the epoch loop compares are rationals extended with the IEEE
    special values. *)

From Stdlib Require Import Ascii String ZArith QArith Reals Lra.
From Stdlib Require Import List Arith Bool Lia Sorted.
Import ListNotations.

Set Implicit Arguments.
Close Scope Q_scope.
Close Scope Z_scope.
Open Scope nat_scope.

(* ================================================================== *)
(** * Python values that configure the layers *)
(* ================================================================== *)

Module Py.

(** The values a kernel size or a stride takes: an int or a tuple. *)
#[warnings="-register-all"]
Inductive value : Type :=
| PInt (n : Z)
| PTuple (items : list value).

(** [isinstance(v, int)] *)
Definition isinstance_int (v : value) : bool :=
  match v with PInt _ => true | PTuple _ => false end.

(** [(v,) * 2], which is also [tuple([v] * 2)] *)
Definition twice (v : value) : value := PTuple [v; v].

End Py.

(* ================================================================== *)
(** * Tensors *)
(* ================================================================== *)

Module TF.

Record tensor (A : Type) : Type := mkTensor {
  shape : list nat;
  val : list nat -> A
}.

Definition set_nth (k v : nat) (l : list nat) : list nat :=
  firstn k l ++ v :: skipn (S k) l.

Definition remove_at (k : nat) (l : list nat) : list nat :=
  firstn k l ++ skipn (S k) l.

Definition insert_at (k v : nat) (l : list nat) : list nat :=
  firstn k l ++ v :: skipn k l.

Section Structural.
Variable A : Type.

(** [tf.split(t, 2, axis)]: two equal parts along [axis]; an axis out of
    range or an odd extent raises. *)
Definition split2 (t : tensor A) (axis : nat) : option (tensor A * tensor A) :=
  if axis <? length (shape t) then
    let d := nth axis (shape t) 0 in
    if d mod 2 =? 0 then
      let s := set_nth axis (d / 2) (shape t) in
      Some (mkTensor s (val t),
            mkTensor s (fun idx =>
              val t (set_nth axis (nth axis idx 0 + d / 2) idx)))
    else None
  else None.

(** [tf.concat([a, b], axis)]: the two operands agree on every other
    axis, otherwise the call raises. *)
Definition concat2 (a b : tensor A) (axis : nat) : option (tensor A) :=
  if axis <? length (shape a) then
    if list_eq_dec Nat.eq_dec (remove_at axis (shape a)) (remove_at axis (shape b)) then
      if length (shape a) =? length (shape b) then
        let da := nth axis (shape a) 0 in
        let db := nth axis (shape b) 0 in
        Some (mkTensor (set_nth axis (da + db) (shape a))
                (fun idx =>
                   let i := nth axis idx 0 in
                   if i <? da then val a idx
                   else val b (set_nth axis (i - da) idx)))
      else None
    else None
  else None.

End Structural.

End TF.

(* ================================================================== *)
(** * Keras layer objects: hyper-parameters and weights *)
(* ================================================================== *)

Module Keras.

Inductive padding_mode := Valid | Same.
Inductive activation_fn := Linear | Tanh.

(** A [tf.keras.layers.Conv2D] instance: the arguments of its constructor,
    with the strides normalised to a pair as Keras stores them, and the
    weights [W] the instance owns. *)
Record Conv2D (W : Type) : Type := mkConv2D {
  filters : Z;
  kernel_size : Py.value;
  strides : Py.value;
  padding : padding_mode;
  activation : activation_fn;
  weights : W
}.

(** Keras turns an int stride into a pair and keeps a tuple. *)
Definition normalize_tuple (v : Py.value) : Py.value :=
  if Py.isinstance_int v then Py.twice v else v.

(** The constructor, with the Keras defaults [strides=(1, 1)],
    [padding='valid'], [activation=None]. *)
Definition Conv2D_new (W : Type) (w : W) (filters : Z) (kernel_size : Py.value)
    (strides : option Py.value) (padding : option padding_mode)
    (activation : option activation_fn) : Conv2D W :=
  mkConv2D filters kernel_size
    (match strides with
     | Some s => normalize_tuple s
     | None => Py.PTuple [Py.PInt 1; Py.PInt 1]
     end)
    (match padding with Some p => p | None => Valid end)
    (match activation with Some a => a | None => Linear end)
    w.

(** A convolutional GRU cell instance, [ConvGRU(filters, kernel_size)] or
    [ConvGRUPlus(filters, kernel_size)]. *)
Record GRUCell (W : Type) : Type := mkCell {
  cell_filters : Z;
  cell_kernel_size : Py.value;
  cell_weights : W
}.

End Keras.

(* ================================================================== *)
(** * The recurrent block, in its two variants *)
(* ================================================================== *)

Module Block.
Import TF Keras.

Section Blocks.
(** Tensor entries and layer weights. *)
Variables A W : Type.

(** The forward maps of the layers the blocks instantiate.  [ConvGRU] and
    [ConvGRUPlus] live in conv_gru.py and conv_gru_plus.py; a cell maps
    (inputs, prior state) to a pair whose first component the block
    uses. *)
Variable conv2d : Conv2D W -> tensor A -> tensor A.
Variable ConvGRU_call : GRUCell W -> tensor A -> tensor A -> tensor A * tensor A.
Variable ConvGRUPlus_call : GRUCell W -> tensor A -> tensor A -> tensor A * tensor A.

Record block : Type := mkBlock {
  conv1 : Conv2D W;
  gru1 : GRUCell W;
  gru2 : GRUCell W
}.

(** [kernel_size = (kernel_size,) * 2 if isinstance(kernel_size, int) else kernel_size] *)
Definition pair_kernel (kernel_size : Py.value) : Py.value :=
  if Py.isinstance_int kernel_size then Py.twice kernel_size else kernel_size.

(** [ConvGRUBlock.__init__(filters, kernel_size)]; [wc], [w1], [w2] are the
    weights the three layers are created with. *)
Definition ConvGRUBlock_init (wc w1 w2 : W) (filters : Z) (kernel_size : Py.value)
    : block :=
  let gru_filters := filters in
  let kernel_size := pair_kernel kernel_size in
  mkBlock
    (Conv2D_new wc filters kernel_size None (Some Same) (Some Tanh))
    (mkCell gru_filters kernel_size w1)
    (mkCell gru_filters kernel_size w2).

(** [ConvGRUPlusBlock.__init__(filters, kernel_size)] *)
Definition ConvGRUPlusBlock_init (wc w1 w2 : W) (filters : Z) (kernel_size : Py.value)
    : block :=
  let kernel_size := pair_kernel kernel_size in
  mkBlock
    (Conv2D_new wc filters kernel_size (Some (Py.PInt 1)) (Some Same) (Some Tanh))
    (mkCell filters kernel_size w1)
    (mkCell filters kernel_size w2).

(** [ConvGRUBlock.call(inputs, state)] *)
Definition ConvGRUBlock_call (self : block) (inputs state : tensor A)
    : option (tensor A * tensor A) :=
  match split2 state 3 with
  | None => None
  | Some (ht_11, ht_12) =>
      let gru_1_out := fst (ConvGRU_call (gru1 self) inputs ht_11) in
      let gru_1_outE := conv2d (conv1 self) gru_1_out in
      let gru_2_out := fst (ConvGRU_call (gru2 self) gru_1_outE ht_12) in
      match concat2 gru_1_out gru_2_out 3 with
      | None => None
      | Some ht =>
          let xt := gru_2_out in
          Some (xt, ht)
      end
  end.

(** [ConvGRUPlusBlock.call(inputs, state)] *)
Definition ConvGRUPlusBlock_call (self : block) (inputs state : tensor A)
    : option (tensor A * tensor A) :=
  match split2 state 3 with
  | None => None
  | Some (ht_11, ht_12) =>
      let gru_1_out := fst (ConvGRUPlus_call (gru1 self) inputs ht_11) in
      let gru_1_outE := conv2d (conv1 self) gru_1_out in
      let gru_2_out := fst (ConvGRUPlus_call (gru2 self) gru_1_outE ht_12) in
      match concat2 gru_1_out gru_2_out 3 with
      | None => None
      | Some ht =>
          let xt := gru_2_out in
          Some (xt, ht)
      end
  end.

(** The two halves of a state along the channel axis, as the spec words
    them: the first [F] channels and the last [F] channels. *)
Definition first_half (F : nat) (state : tensor A) : tensor A :=
  match shape state with
  | [n; h; w; _] => mkTensor [n; h; w; F] (val state)
  | _ => state
  end.

Definition second_half (F : nat) (state : tensor A) : tensor A :=
  match shape state with
  | [n; h; w; _] =>
      mkTensor [n; h; w; F]
        (fun idx => val state (set_nth 3 (nth 3 idx 0 + F) idx))
  | _ => state
  end.

(** Channel-axis concatenation of two rank-4 tensors with [ca] and [cb]
    channels, as the spec words it. *)
Definition channel_concat (a b : tensor A) : tensor A :=
  mkTensor (set_nth 3 (nth 3 (shape a) 0 + nth 3 (shape b) 0) (shape a))
    (fun idx =>
       if nth 3 idx 0 <? nth 3 (shape a) 0 then val a idx
       else val b (set_nth 3 (nth 3 idx 0 - nth 3 (shape a) 0) idx)).

(** A cell keeps the shape of the state it is given. *)
Definition keeps_state_shape
    (cell : tensor A -> tensor A -> tensor A * tensor A) (s : list nat) : Prop :=
  forall x h, shape h = s -> shape (fst (cell x h)) = s.

End Blocks.
End Block.

(* ================================================================== *)
(** * The convolutional encoding stage *)
(* ================================================================== *)

Module Encoder.
Import TF Keras.

(** Layers that keep running statistics or draw random masks thread a
    store [S]; indexing a Python list past its end raises. *)
Definition M (S X : Type) : Type := S -> option (X * S).

Definition ret {S X : Type} (x : X) : M S X := fun s => Some (x, s).

Definition bind {S X Y : Type} (m : M S X) (k : X -> M S Y) : M S Y :=
  fun s => match m s with
           | None => None
           | Some (x, s') => k x s'
           end.

Definition raise {S X : Type} : M S X := fun _ => None.

Definition lift {S X : Type} (f : S -> X * S) : M S X := fun s => Some (f s).

Declare Scope layer_scope.
Delimit Scope layer_scope with layer.
Notation "x <- m ;; k" := (bind m (fun x => k))
  (at level 61, m at next level, right associativity) : layer_scope.

(** The instance a layer object is: the [i]-th of the stack, or the one of
    the downsampling stage. *)
Inductive slot : Type :=
| Stack (i : nat)
| Down.

(** [BatchNormalization() if batch_norm else Lambda(lambda x, training=True: x)] *)
Inductive norm_layer : Type :=
| BatchNormalization (instance : slot)
| NormLambda.

(** [SpatialDropout2D(rate=dropout_rate)] or the identity [Lambda] *)
Inductive dropout_layer : Type :=
| SpatialDropout2D (rate : Q)
| DropLambda.

Record DownsamplingLayer (W : Type) : Type := mkDownsampling {
  conv : Conv2D W;
  batch_norm : norm_layer;
  down_activation : string
}.

Record ConvEncodingLayer (W : Type) : Type := mkEncoding {
  downsampling_kernel_size : Py.value;
  downsampling_filters : Z;
  enc_kernel_size : Py.value;
  num_conv_layers : nat;
  enc_filters : Z;
  enc_strides : Py.value;
  enc_activation : string;
  conv_layers : list (Conv2D W);
  batch_norms : list norm_layer;
  downsampling_layer : DownsamplingLayer W;
  dropout : dropout_layer
}.

(** The keyword arguments of [ConvEncodingLayer.__init__]. *)
Record config : Type := mkConfig {
  arg_kernel_size : Py.value;
  arg_downsampling_kernel_size : option Py.value;
  arg_downsampling_filters : option Z;
  arg_filters : Z;
  arg_conv_layers : nat;
  arg_activation : string;
  arg_batch_norm : bool;
  arg_dropout_rate : option Q;
  arg_strides : Py.value
}.

(** The defaults of the signature. *)
Definition default_config : config :=
  mkConfig (Py.PInt 3) None None 32%Z 2 "linear" false None (Py.PInt 2).

Section Layers.
Variables A W S : Type.

(** Forward maps of the Keras layers. *)
Variable conv2d : Conv2D W -> tensor A -> tensor A.
Variable batch_normalization : slot -> bool -> tensor A -> S -> tensor A * S.
Variable spatial_dropout : Q -> bool -> tensor A -> S -> tensor A * S.

(** Modelled from the spec: [get_activation] of censai/models/utils is
    missing from the sources; the spec calls what it returns "a
    configurable nonlinearity", a map on features chosen by name. *)
Variable get_activation : string -> tensor A -> tensor A.

(** The weights each new convolution is created with. *)
Variable fresh : slot -> W.

Local Open Scope layer_scope.

(** Calling a layer object; [self.activation] is handed a [training]
    keyword at some call sites and none at others. *)
Definition Conv2D_call (layer : Conv2D W) (x : tensor A) (training : bool)
    : M S (tensor A) :=
  ret (conv2d layer x).

Definition norm_call (layer : norm_layer) (x : tensor A) (training : bool)
    : M S (tensor A) :=
  match layer with
  | BatchNormalization i => lift (batch_normalization i training x)
  | NormLambda => ret x
  end.

Definition dropout_call (layer : dropout_layer) (x : tensor A) (training : bool)
    : M S (tensor A) :=
  match layer with
  | SpatialDropout2D rate => lift (spatial_dropout rate training x)
  | DropLambda => ret x
  end.

Definition activation_call (name : string) (x : tensor A) (training : option bool)
    : M S (tensor A) :=
  ret (get_activation name x).

(** [DownsamplingLayer.__init__] *)
Definition DownsamplingLayer_init (filters : Z) (kernel_size : Py.value)
    (activation : string) (strides : Py.value) (batch_norm : bool)
    : DownsamplingLayer W :=
  mkDownsampling
    (Conv2D_new (fresh Down) filters kernel_size (Some strides) (Some Same) None)
    (if batch_norm then BatchNormalization Down else NormLambda)
    activation.

(** [DownsamplingLayer.call] *)
Definition DownsamplingLayer_call (self : DownsamplingLayer W) (x : tensor A)
    (training : bool) : M S (tensor A) :=
  x <- Conv2D_call (conv self) x training ;;
  x <- norm_call (batch_norm self) x training ;;
  x <- activation_call (down_activation self) x None ;;
  ret x.

(** [ConvEncodingLayer.__init__] *)
Definition ConvEncodingLayer_init (args : config) : ConvEncodingLayer W :=
  let downsampling_kernel_size :=
    match arg_downsampling_kernel_size args with
    | None => arg_kernel_size args
    | Some k => Py.twice k
    end in
  let downsampling_filters :=
    match arg_downsampling_filters args with
    | None => arg_filters args
    | Some f => f
    end in
  let kernel_size :=
    if Py.isinstance_int (arg_kernel_size args)
    then Py.twice (arg_kernel_size args) else arg_kernel_size args in
  let num_conv_layers := arg_conv_layers args in
  let filters := arg_filters args in
  let strides :=
    if Py.isinstance_int (arg_strides args)
    then Py.twice (arg_strides args) else arg_strides args in
  let activation := arg_activation args in
  mkEncoding downsampling_kernel_size downsampling_filters kernel_size
    num_conv_layers filters strides activation
    (map (fun i => Conv2D_new (fresh (Stack i)) filters kernel_size None (Some Same) None)
         (seq 0 num_conv_layers))
    (map (fun i => if arg_batch_norm args
                   then BatchNormalization (Stack i) else NormLambda)
         (seq 0 num_conv_layers))
    (DownsamplingLayer_init downsampling_filters downsampling_kernel_size
       activation strides (arg_batch_norm args))
    (match arg_dropout_rate args with
     | None => DropLambda
     | Some rate => SpatialDropout2D rate
     end).

(** [enumerate(l)] *)
Definition enumerate {X : Type} (l : list X) : list (nat * X) :=
  combine (seq 0 (length l)) l.

(** [l[i]] *)
Definition index {X : Type} (l : list X) (i : nat) : M S X :=
  match nth_error l i with
  | Some x => ret x
  | None => raise
  end.

(** The loop of [ConvEncodingLayer.call]. *)
Fixpoint call_loop (self : ConvEncodingLayer W) (todo : list (nat * Conv2D W))
    (x : tensor A) (training : bool) : M S (tensor A) :=
  match todo with
  | [] => ret x
  | (i, layer) :: rest =>
      x <- Conv2D_call layer x training ;;
      bn <- index (batch_norms self) i ;;
      x <- norm_call bn x training ;;
      x <- activation_call (enc_activation self) x (Some training) ;;
      x <- dropout_call (dropout self) x training ;;
      call_loop self rest x training
  end.

(** [ConvEncodingLayer.call] *)
Definition ConvEncodingLayer_call (self : ConvEncodingLayer W) (x : tensor A)
    (training : bool) : M S (tensor A) :=
  x <- call_loop self (enumerate (conv_layers self)) x training ;;
  x <- DownsamplingLayer_call (downsampling_layer self) x training ;;
  ret x.

(** The loop of [ConvEncodingLayer.call_with_skip_connection]. *)
Fixpoint skip_loop (self : ConvEncodingLayer W) (todo : list (nat * Conv2D W))
    (x : tensor A) (training : bool) : M S (tensor A) :=
  match todo with
  | [] => ret x
  | (i, layer) :: rest =>
      x <- Conv2D_call layer x training ;;
      bn <- index (batch_norms self) i ;;
      x <- norm_call bn x training ;;
      x <- activation_call (enc_activation self) x None ;;
      x <- dropout_call (dropout self) x training ;;
      skip_loop self rest x training
  end.

(** [ConvEncodingLayer.call_with_skip_connection] *)
Definition ConvEncodingLayer_call_with_skip_connection
    (self : ConvEncodingLayer W) (x : tensor A) (training : bool)
    : M S (tensor A * tensor A) :=
  x <- skip_loop self (enumerate (conv_layers self)) x training ;;
  x_down <- DownsamplingLayer_call (downsampling_layer self) x training ;;
  ret (x, x_down).

(** ** The stage as the spec words it *)

(** Normalisation, the identity when [batch_norm] is off. *)
Definition spec_normalize (args : config) (i : slot) (training : bool)
    (x : tensor A) : M S (tensor A) :=
  if arg_batch_norm args then lift (batch_normalization i training x) else ret x.

(** Dropout, the identity when [dropout_rate] is unset. *)
Definition spec_dropout (args : config) (training : bool) (x : tensor A)
    : M S (tensor A) :=
  match arg_dropout_rate args with
  | None => ret x
  | Some rate => lift (spatial_dropout rate training x)
  end.

(** The [i]-th convolution of the stack: same padding, unit stride. *)
Definition spec_conv (args : config) (i : nat) : Conv2D W :=
  mkConv2D (arg_filters args)
    (if Py.isinstance_int (arg_kernel_size args)
     then Py.twice (arg_kernel_size args) else arg_kernel_size args)
    (Py.PTuple [Py.PInt 1; Py.PInt 1]) Same Linear (fresh (Stack i)).

(** The downsampling convolution: strided, same padding. *)
Definition spec_down_conv (args : config) : Conv2D W :=
  mkConv2D
    (match arg_downsampling_filters args with
     | None => arg_filters args
     | Some f => f
     end)
    (match arg_downsampling_kernel_size args with
     | None => arg_kernel_size args
     | Some k => Py.PTuple [k; k]
     end)
    (if Py.isinstance_int (arg_strides args)
     then Py.PTuple [arg_strides args; arg_strides args] else arg_strides args)
    Same Linear (fresh Down).

(** One layer of the stack: convolution, normalisation, activation,
    dropout. *)
Definition spec_layer (args : config) (training : bool) (i : nat) (x : tensor A)
    : M S (tensor A) :=
  x <- ret (conv2d (spec_conv args i) x) ;;
  x <- spec_normalize args (Stack i) training x ;;
  x <- ret (get_activation (arg_activation args) x) ;;
  spec_dropout args training x.

(** Layers [i], [i+1], ..., [i+n-1] in order. *)
Fixpoint spec_stack (args : config) (training : bool) (i n : nat) (x : tensor A)
    : M S (tensor A) :=
  match n with
  | 0 => ret x
  | Datatypes.S n' =>
      x <- spec_layer args training i x ;;
      spec_stack args training (Datatypes.S i) n' x
  end.

(** The downsampling stage: convolution, normalisation, activation. *)
Definition spec_downsample (args : config) (training : bool) (x : tensor A)
    : M S (tensor A) :=
  x <- ret (conv2d (spec_down_conv args) x) ;;
  x <- spec_normalize args Down training x ;;
  ret (get_activation (arg_activation args) x).

Definition spec_forward (args : config) (training : bool) (x : tensor A)
    : M S (tensor A) :=
  x <- spec_stack args training 0 (arg_conv_layers args) x ;;
  spec_downsample args training x.

End Layers.
End Encoder.

(* ================================================================== *)
(** * Numeric tensor operations *)
(* ================================================================== *)

Module Num.
Import TF.

(** Sum of [f 0], ..., [f (n-1)]. *)
Fixpoint sum_upto (n : nat) (f : nat -> R) : R :=
  match n with
  | O => 0%R
  | S k => (sum_upto k f + f k)%R
  end.

(** Broadcasting of one axis: equal extents, or one of them is 1. *)
Definition bdim (a b : nat) : option nat :=
  if a =? b then Some a
  else if a =? 1 then Some b
  else if b =? 1 then Some a
  else None.

(** Broadcasting of two shapes, trailing axes first. *)
Fixpoint bshape_rev (s1 s2 : list nat) : option (list nat) :=
  match s1, s2 with
  | [], s => Some s
  | s, [] => Some s
  | a :: s1', b :: s2' =>
      match bdim a b, bshape_rev s1' s2' with
      | Some d, Some s => Some (d :: s)
      | _, _ => None
      end
  end.

Definition broadcast_shape (s1 s2 : list nat) : option (list nat) :=
  option_map (@rev nat) (bshape_rev (rev s1) (rev s2)).

(** The index an operand of shape [s] is read at for the result index
    [idx]: leading axes it lacks are dropped, axes of extent 1 read 0. *)
Definition bindex (s idx : list nat) : list nat :=
  map (fun di => if fst di =? 1 then 0 else snd di)
      (combine s (skipn (length idx - length s) idx)).

(** An elementwise binary operation of two tensors. *)
Definition ewise (f : R -> R -> R) (a b : tensor R) : option (tensor R) :=
  match broadcast_shape (shape a) (shape b) with
  | None => None
  | Some s =>
      Some (mkTensor s (fun idx =>
              f (val a (bindex (shape a) idx)) (val b (bindex (shape b) idx))))
  end.

(** An elementwise operation with Python scalars. *)
Definition tmap (f : R -> R) (t : tensor R) : tensor R :=
  mkTensor (shape t) (fun idx => f (val t idx)).

Definition scalar (x : R) : tensor R := mkTensor [] (fun _ => x).

(** Summing one axis away. *)
Definition reduce_axis (k : nat) (t : tensor R) : tensor R :=
  mkTensor (remove_at k (shape t))
    (fun idx => sum_upto (nth k (shape t) 0) (fun i => val t (insert_at k i idx))).

(** [tf.reduce_sum(t, axis=axes)] for axes listed in increasing order, as
    at every call site; an axis out of range raises. *)
Definition reduce_sum (axes : list nat) (t : tensor R) : option (tensor R) :=
  if forallb (fun k => k <? length (shape t)) axes
  then Some (fold_right reduce_axis t axes)
  else None.

(** [tf.reduce_sum(t, axis=axes, keepdims=True)] *)
Definition reduce_sum_keepdims (axes : list nat) (t : tensor R) : option (tensor R) :=
  match reduce_sum axes t with
  | None => None
  | Some r =>
      Some (mkTensor (fold_right (fun k s => set_nth k 1 s) (shape t) axes)
              (fun idx => val r (fold_right remove_at idx axes)))
  end.

(** [tf.reduce_sum(t)]: every axis, down to a scalar. *)
Definition reduce_sum_all (t : tensor R) : R :=
  val (fold_right reduce_axis t (seq 0 (length (shape t)))) [].

(** [tf.ones(shape)], [tf.ones_like(t)], [tf.range(n)] *)
Definition ones (s : list nat) : tensor R := mkTensor s (fun _ => 1%R).
Definition ones_like (t : tensor R) : tensor R := ones (shape t).
Definition range (n : nat) : tensor R := mkTensor [n] (fun idx => INR (nth 0 idx 0)).

(** [t[..., tf.newaxis]] *)
Definition newaxis_last (t : tensor R) : tensor R :=
  mkTensor (shape t ++ [1]) (fun idx => val t (removelast idx)).

(** [tf.math.reduce_prod(t.shape[1:])] *)
Definition reduce_prod_tail_shape (t : tensor R) : nat :=
  fold_right Nat.mul 1 (tl (shape t)).

End Num.

(* ================================================================== *)
(** * scripts/train_rim.py *)
(* ================================================================== *)

Module TrainRim.
Import TF Num.

Inductive exn : Type :=
| ValueError (msg : string)
| ZeroDivisionError.

(** ** Setup of the loss weights (main, lines 183-214) *)

(** [wt], before [wt = wt[..., tf.newaxis]]. *)
Definition time_weights (name : string) (steps : nat) : exn + tensor R :=
  if (name =? "uniform")%string then
    inr (tmap (fun x => x / INR steps)%R (ones [steps]))
  else if (name =? "linear")%string then
    inr (tmap (fun x => 2 * (x + 1) / INR steps / INR (steps + 1))%R (range steps))
  else if (name =? "quadratic")%string then
    inr (tmap (fun x => 6 * (x + 1) ^ 2 / INR steps / INR (steps + 1)
                         / INR (2 * steps + 1))%R (range steps))
  else inl (ValueError "time_weights must be in ['uniform', 'linear', 'quadratic']").

(** The body shared by the three normalised [Lambda] layers:
    [g(k) / tf.reduce_sum(g(k), axis=(1, 2, 3), keepdims=True)]. *)
Definition normalized (g : R -> R) (k : tensor R) : option (tensor R) :=
  match reduce_sum_keepdims [1; 2; 3] (tmap g k) with
  | None => None
  | Some total => ewise Rdiv (tmap g k) total
  end.

(** [tf.ones_like(k) / tf.cast(tf.math.reduce_prod(k.shape[1:]), DTYPE)] *)
Definition uniform_weights (k : tensor R) : option (tensor R) :=
  ewise Rdiv (ones_like k) (scalar (INR (reduce_prod_tail_shape k))).

Definition kappa_residual_weights (name : string)
    : exn + (tensor R -> option (tensor R)) :=
  if (name =? "uniform")%string then inr uniform_weights
  else if (name =? "linear")%string then inr (normalized (fun x => x))
  else if (name =? "sqrt")%string then inr (normalized sqrt)
  else if (name =? "quadratic")%string then inr (normalized Rsqr)
  else inl (ValueError
    "kappa_residual_weights must be in ['uniform', 'linear', 'quadratic', 'sqrt']").

Definition source_residual_weights (name : string)
    : exn + (tensor R -> option (tensor R)) :=
  if (name =? "uniform")%string then inr uniform_weights
  else if (name =? "linear")%string then inr (normalized (fun x => x))
  else if (name =? "quadratic")%string then inr (normalized Rsqr)
  else if (name =? "sqrt")%string then inr (normalized sqrt)
  else inl (ValueError
    "kappa_residual_weights must be in ['uniform', 'linear', 'quadratic', 'sqrt']").

Record loss_weights : Type := mkWeights {
  wt : tensor R;
  wk : tensor R -> option (tensor R);
  ws : tensor R -> option (tensor R)
}.

(** Lines 183 to 214 in order: the first unrecognised name raises. *)
Definition setup_weights (time_name kappa_name source_name : string) (steps : nat)
    : exn + loss_weights :=
  match time_weights time_name steps with
  | inl e => inl e
  | inr wt0 =>
      let wt := newaxis_last wt0 in
      match kappa_residual_weights kappa_name with
      | inl e => inl e
      | inr wk =>
          match source_residual_weights source_name with
          | inl e => inl e
          | inr ws => inr (mkWeights wt wk ws)
          end
      end
  end.

(** ** The cost of train_step (lines 272-286) *)

Definition obind {X Y : Type} (m : option X) (k : X -> option Y) : option Y :=
  match m with
  | None => None
  | Some x => k x
  end.

Declare Scope tf_scope.
Delimit Scope tf_scope with tf.
Notation "x <- m ;; k" := (obind m (fun x => k))
  (at level 61, m at next level, right associativity) : tf_scope.

Section TrainStep.
(** The inverse links of the RIM, which lives outside these sources. *)
Variables source_inverse_link kappa_inverse_link : tensor R -> tensor R.
Variable weights : loss_weights.
Variable batch_size : Z.

Local Open Scope tf_scope.

(** [cost] of [train_step], from the series the RIM returned; the
    gradient step and the three metrics returned next to it are left
    out. *)
Definition train_step (source kappa source_series kappa_series : tensor R)
    : option R :=
  ws_source <- ws weights source ;;
  source_res <- ewise Rminus source_series (source_inverse_link source) ;;
  source_prod <- ewise Rmult ws_source (tmap Rsqr source_res) ;;
  source_cost1 <- reduce_sum [2; 3; 4] source_prod ;;
  wk_kappa <- wk weights kappa ;;
  kappa_res <- ewise Rminus kappa_series (kappa_inverse_link kappa) ;;
  kappa_prod <- ewise Rmult wk_kappa (tmap Rsqr kappa_res) ;;
  kappa_cost1 <- reduce_sum [2; 3; 4] kappa_prod ;;
  source_wt <- ewise Rmult (wt weights) source_cost1 ;;
  source_cost <- reduce_sum [0] source_wt ;;
  kappa_wt <- ewise Rmult (wt weights) kappa_cost1 ;;
  kappa_cost <- reduce_sum [0] kappa_wt ;;
  total <- ewise Rplus kappa_cost source_cost ;;
  Some (reduce_sum_all total / IZR batch_size)%R.

(** *** The loss as the spec words it *)

(** Sum over the pixels of one sample. *)
Definition pixel_sum (H W C : nat) (f : nat -> nat -> nat -> R) : R :=
  sum_upto H (fun h => sum_upto W (fun w => sum_upto C (fun c => f h w c))).

(** One field of one sample: per-pixel weights times squared residual,
    summed over pixels, weighted per step, summed over steps. *)
Definition field_loss (T H W C : nat) (step_weight : nat -> R)
    (pixel_weight estimate truth : tensor R) (b : nat) : R :=
  sum_upto T (fun t =>
    step_weight t *
    pixel_sum H W C (fun h w c =>
      val pixel_weight [b; h; w; c] *
      Rsqr (val estimate [t; b; h; w; c] - val truth [b; h; w; c])))%R.

(** Both fields of every sample of the batch, over the batch size; the
    source maps have [Hs * Ws * Cs] pixels, the kappa maps
    [Hk * Wk * Ck]. *)
Definition spec_loss (T B Hs Ws Cs Hk Wk Ck : nat) (w_source w_kappa : tensor R)
    (source kappa source_series kappa_series : tensor R) : R :=
  (sum_upto B (fun b =>
     field_loss T Hs Ws Cs (fun t => val (wt weights) [t; 0%nat]) w_source
       source_series (source_inverse_link source) b +
     field_loss T Hk Wk Ck (fun t => val (wt weights) [t; 0%nat]) w_kappa
       kappa_series (kappa_inverse_link kappa) b)
   / IZR batch_size)%R.

End TrainStep.

(** ** What the weight schemes divide by, for sample [b] of a batch *)

Definition sample_sum (g : R -> R) (k : tensor R) (b : nat) : R :=
  match shape k with
  | [_; H; W; C] =>
      sum_upto H (fun h => sum_upto W (fun w => sum_upto C (fun c =>
        g (val k [b; h; w; c]))))
  | _ => 0%R
  end.

Inductive pixel_scheme : Type := Uniform | LinearW | SqrtW | Quadratic.

Definition scheme_name (s : pixel_scheme) : string :=
  match s with
  | Uniform => "uniform"
  | LinearW => "linear"
  | SqrtW => "sqrt"
  | Quadratic => "quadratic"
  end.

Definition denominator (s : pixel_scheme) (k : tensor R) (b : nat) : R :=
  match s with
  | Uniform => INR (reduce_prod_tail_shape k)
  | LinearW => sample_sum (fun x => x) k b
  | SqrtW => sample_sum sqrt k b
  | Quadratic => sample_sum Rsqr k b
  end.

(** The square root is taken of non-negative pixels only. *)
Definition in_domain (s : pixel_scheme) (k : tensor R) (b : nat) : Prop :=
  match s, shape k with
  | SqrtW, [_; H; W; C] =>
      forall h w c, h < H -> w < W -> c < C -> (0 <= val k [b; h; w; c])%R
  | _, _ => True
  end.

(** The names the setup recognises. *)
Definition recognized_time (name : string) : bool :=
  ((name =? "uniform") || (name =? "linear") || (name =? "quadratic"))%string.

Definition recognized_pixel (name : string) : bool :=
  ((name =? "uniform") || (name =? "linear") || (name =? "quadratic")
   || (name =? "sqrt"))%string.

Inductive time_scheme : Type := TUniform | TLinear | TQuadratic.

Definition time_scheme_name (s : time_scheme) : string :=
  match s with
  | TUniform => "uniform"
  | TLinear => "linear"
  | TQuadratic => "quadratic"
  end.

(** The closed forms of the per-step weights, for step [t] of [1..T]. *)
Definition time_weight_formula (s : time_scheme) (T t : nat) : R :=
  match s with
  | TUniform => 1 / INR T
  | TLinear => 2 * INR t / (INR T * (INR T + 1))
  | TQuadratic => 6 * INR t ^ 2 / (INR T * (INR T + 1) * (2 * INR T + 1))
  end%R.

(** ** The epoch loop of main (lines 356-498) *)

(** A float: a rational, or one of the IEEE special values. *)
Inductive float : Type :=
| NaN
| PInf
| NInf
| Fin (q : Q).

(** [np.isnan] *)
Definition isnan (x : float) : bool :=
  match x with NaN => true | _ => false end.

Definition Qltb (x y : Q) : bool := negb (Qle_bool y x).

(** The sign of a float that is not NaN: -1, 0 or 1. *)
Definition fsign (x : float) : Z :=
  match x with
  | NaN => 0
  | PInf => 1
  | NInf => -1
  | Fin q => Z.sgn (Qnum q)
  end%Z.

Definition fsub (a b : float) : float :=
  match a, b with
  | NaN, _ | _, NaN => NaN
  | PInf, PInf | NInf, NInf => NaN
  | PInf, _ => PInf
  | NInf, _ => NInf
  | Fin _, PInf => NInf
  | Fin _, NInf => PInf
  | Fin x, Fin y => Fin (x - y)%Q
  end.

Definition fmul (a b : float) : float :=
  match a, b with
  | NaN, _ | _, NaN => NaN
  | Fin x, Fin y => Fin (x * y)%Q
  | _, _ =>
      match (fsign a * fsign b)%Z with
      | Z0 => NaN
      | Zpos _ => PInf
      | Zneg _ => NInf
      end
  end.

(** [a < b]: false as soon as one side is NaN. *)
Definition flt (a b : float) : bool :=
  match a, b with
  | NaN, _ | _, NaN => false
  | _, NInf => false
  | NInf, _ => true
  | PInf, _ => false
  | Fin _, PInf => true
  | Fin x, Fin y => Qltb x y
  end.

(** [args.patience]: an int, or the default [np.inf]. *)
Inductive count : Type :=
| Finite (n : Z)
| Infinite.

Definition decr (c : count) : count :=
  match c with
  | Finite n => Finite (n - 1)
  | Infinite => Infinite
  end.

Definition is_zero (c : count) : bool :=
  match c with
  | Finite n => (n =? 0)%Z
  | Infinite => false
  end.

Record args : Type := mkArgs {
  time_weights_arg : string;
  kappa_residual_weights_arg : string;
  source_residual_weights_arg : string;
  steps : nat;
  epochs : nat;
  patience_arg : count;
  tolerance : float;
  track_train : bool;
  checkpoints : Z;
  (** [args.model_dir.lower() != "none"] *)
  save_checkpoint : bool
}.

(** What one epoch reads from outside the loop: the two clock tests, the
    epoch means of the train and validation cost, and the test on the
    learning rate. *)
Record epoch_obs : Type := mkObs {
  (** line 364 *)
  no_time_for_epoch : bool;
  train_cost : float;
  val_cost : float;
  (** line 477 *)
  past_max_time : bool;
  (** line 494 *)
  lr_below_limit : bool
}.

Record loop_state : Type := mkLoop {
  best_loss : float;
  patience : count;
  out_of_time : bool;
  lastest_checkpoint : Z;
  (** rows appended to score_sheet.txt *)
  score_sheet : list (Z * float);
  (** epochs in which [checkpoint_manager.save()] ran *)
  saved : list nat
}.

Inductive control : Type :=
| Next (s : loop_state)
| Break (s : loop_state)
| Raise (e : exn) (s : loop_state).

(** The body of [for epoch in range(args.epochs)], from the test of the
    tracked cost on; the summaries and the history are left out. *)
Definition after_epoch (a : args) (epoch : nat) (o : epoch_obs) (s : loop_state)
    : control :=
  let cost := if track_train a then train_cost o else val_cost o in
  if isnan cost then Break s
  else
    let s :=
      if flt cost (fmul (fsub (Fin 1) (tolerance a)) (best_loss s))
      then mkLoop cost (patience_arg a) (out_of_time s) (lastest_checkpoint s)
             (score_sheet s) (saved s)
      else mkLoop (best_loss s) (decr (patience s)) (out_of_time s)
             (lastest_checkpoint s) (score_sheet s) (saved s) in
    let s :=
      if past_max_time o
      then mkLoop (best_loss s) (patience s) true (lastest_checkpoint s)
             (score_sheet s) (saved s)
      else s in
    let checkpointed : exn + loop_state :=
      if save_checkpoint a then
        if (checkpoints a =? 0)%Z then inl ZeroDivisionError
        else if ((Z.of_nat epoch mod checkpoints a =? 0)%Z
                 || is_zero (patience s)
                 || (Z.of_nat epoch =? Z.of_nat (epochs a) - 1)%Z
                 || out_of_time s)%bool
        then inr (mkLoop (best_loss s) (patience s) (out_of_time s)
                    (lastest_checkpoint s + 1)%Z
                    (score_sheet s ++ [(lastest_checkpoint s, cost)])
                    (saved s ++ [epoch]))
        else inr s
      else inr s in
    match checkpointed with
    | inl e => Raise e s
    | inr s =>
        if is_zero (patience s) then Break s
        else if out_of_time s then Break s
        else if lr_below_limit o then Break s
        else Next s
    end.

Definition epoch_body (a : args) (epoch : nat) (o : epoch_obs) (s : loop_state)
    : control :=
  if no_time_for_epoch o then Break s
  else after_epoch a epoch o s.

(** The loop over [range(args.epochs)]; [obs] gives what each epoch
    observes. *)
Fixpoint run_epochs (a : args) (obs : nat -> epoch_obs) (todo : list nat)
    (s : loop_state) : option exn * loop_state :=
  match todo with
  | [] => (None, s)
  | epoch :: rest =>
      match epoch_body a epoch (obs epoch) s with
      | Next s' => run_epochs a obs rest s'
      | Break s' => (None, s')
      | Raise e s' => (Some e, s')
      end
  end.

Definition initial_state (a : args) : loop_state :=
  mkLoop PInf (patience_arg a) false 1%Z [] [].

Definition training_loop (a : args) (obs : nat -> epoch_obs)
    : option exn * loop_state :=
  run_epochs a obs (seq 0 (epochs a)) (initial_state a).

(** [main]: the weights are set up before the loop is entered. *)
Inductive outcome : Type :=
| SetupRaised (e : exn)
| Trained (raised : option exn) (final : loop_state).

Definition main (a : args) (obs : nat -> epoch_obs) : outcome :=
  match setup_weights (time_weights_arg a) (kappa_residual_weights_arg a)
          (source_residual_weights_arg a) (steps a) with
  | inl e => SetupRaised e
  | inr _ =>
      let r := training_loop a obs in
      Trained (fst r) (snd r)
  end.

(** The cost the loop tracks in an epoch. *)
Definition tracked_cost (a : args) (o : epoch_obs) : float :=
  if track_train a then train_cost o else val_cost o.

(** A float that is neither NaN nor an infinity. *)
Definition is_finite (x : float) : bool :=
  match x with Fin _ => true | _ => false end.

(** A weight layer returns, for a batch of maps, a tensor of its shape. *)
Definition keeps_batch_shape (layer : tensor R -> option (tensor R)) : Prop :=
  forall k B H W C,
    shape k = [B; H; W; C] ->
    exists w, layer k = Some w /\ shape w = [B; H; W; C].

End TrainRim.

(* ================================================================== *)
(** * Concrete inputs *)
(* ================================================================== *)

Module Examples.
Import TF Keras.

(** A state of four channels on a 2 x 2 grid, each entry its channel. *)
Definition state : tensor nat := mkTensor [1; 2; 2; 4] (fun idx => nth 3 idx 0).

Definition inputs : tensor nat := mkTensor [1; 2; 2; 3] (fun _ => 0).

(** A convolution and a cell that hand back what they are given. *)
Definition conv2d (layer : Conv2D unit) (x : tensor nat) : tensor nat := x.

Definition cell (c : GRUCell unit) (x h : tensor nat) : tensor nat * tensor nat :=
  (h, h).

Definition gru_block : Block.block unit :=
  Block.ConvGRUBlock_init tt tt tt 2%Z (Py.PInt 5).

Definition gru_plus_block : Block.block unit :=
  Block.ConvGRUPlusBlock_init tt tt tt 2%Z (Py.PInt 5).

(** One sample of two pixels, and a trace of two steps. *)
Definition batch : tensor R := mkTensor [1; 1; 1; 2] (fun _ => 1%R).

Definition series : tensor R := mkTensor [2; 1; 1; 1; 2] (fun _ => 0%R).

Definition identity_link (x : tensor R) : tensor R := x.

(** The weights of [--time_weights uniform --kappa_residual_weights sqrt
    --source_residual_weights uniform --steps 2]. *)
Definition weights : TrainRim.loss_weights :=
  TrainRim.mkWeights
    (Num.newaxis_last (Num.tmap (fun x => x / INR 2)%R (Num.ones [2])))
    (TrainRim.normalized sqrt)
    TrainRim.uniform_weights.

(** Three epochs, checkpoints every five epochs into a model directory,
    the validation cost tracked. *)
Definition run_args : TrainRim.args :=
  TrainRim.mkArgs "uniform" "sqrt" "uniform" 2 3 TrainRim.Infinite
    (TrainRim.Fin 0) false 5%Z true.

Definition bad_args : TrainRim.args :=
  TrainRim.mkArgs "uniform" "cubic" "uniform" 2 3 TrainRim.Infinite
    (TrainRim.Fin 0) false 5%Z true.

(** Every epoch ends with a validation cost that is NaN. *)
Definition nan_epochs (epoch : nat) : TrainRim.epoch_obs :=
  TrainRim.mkObs false (TrainRim.Fin 1) TrainRim.NaN false false.

(** Every epoch ends with an infinite validation cost. *)
Definition inf_epochs (epoch : nat) : TrainRim.epoch_obs :=
  TrainRim.mkObs false (TrainRim.Fin 1) TrainRim.PInf false false.

End Examples.

(* ================================================================== *)
(** * scripts/train_rim.py: log names and checkpoint directories *)
(* ================================================================== *)

Module Logging.

(** [str.lower()], on ASCII letters. *)
Definition lower_ascii (c : Ascii.ascii) : Ascii.ascii :=
  let n := Ascii.nat_of_ascii c in
  if (65 <=? n) && (n <=? 90) then Ascii.ascii_of_nat (n + 32) else c.

Fixpoint lower (s : string) : string :=
  match s with
  | EmptyString => EmptyString
  | String c rest => String (lower_ascii c) (lower rest)
  end.

(** [s.startswith("/")] and [s.endswith("/")] *)
Definition starts_with_sep (s : string) : bool :=
  match s with
  | String c _ => Ascii.eqb c "/"%char
  | EmptyString => false
  end.

Fixpoint ends_with_sep (s : string) : bool :=
  match s with
  | EmptyString => false
  | String c EmptyString => Ascii.eqb c "/"%char
  | String _ rest => ends_with_sep rest
  end.

(** [os.path.join(a, b)] of posixpath. *)
Definition path_join (a b : string) : string :=
  if starts_with_sep b then b
  else if (a =? "")%string || ends_with_sep a then (a ++ b)%string
  else (a ++ "/" ++ b)%string.

Record log_args : Type := mkLogArgs {
  model_id_arg : string;
  logname_arg : option string;
  logname_prefixe : string;
  model_dir : string;
  reset_optimizer_states : bool
}.

(** Lines 217-229; [now] is [datetime.now().strftime("%y%m%d%H%M%S")].
    Returns [(logname, model_id)]. *)
Definition log_names (a : log_args) (now : string) : string * string :=
  if negb (lower (model_id_arg a) =? "none")%string then
    match logname_arg a with
    | Some l => ((model_id_arg a ++ "_" ++ l)%string, model_id_arg a)
    | None => ((model_id_arg a ++ "_" ++ now)%string, model_id_arg a)
    end
  else
    match logname_arg a with
    | Some l => (l, l)
    | None =>
        let logname := (logname_prefixe a ++ "_" ++ now)%string in
        (logname, logname)
    end.

(** What lines 238-269 leave behind: whether checkpoints are saved, the
    directory the latest checkpoint was restored from, the directory the
    manager saves into, and whether the optimizer was built anew. *)
Record checkpointing : Type := mkCheckpointing {
  saves : bool;
  restored_from : option string;
  save_dir : option string;
  optimizer_reset : bool
}.

Definition setup_checkpoints (a : log_args) (now : string) : checkpointing :=
  let (logname, model_id) := log_names a now in
  if negb (lower (model_dir a) =? "none")%string then
    let checkpoints_dir := path_join (model_dir a) logname in
    let old_checkpoints_dir := path_join (model_dir a) model_id in
    let restored :=
      if negb (lower (model_id_arg a) =? "none")%string
      then Some old_checkpoints_dir else None in
    if negb (old_checkpoints_dir =? checkpoints_dir)%string then
      mkCheckpointing true restored (Some checkpoints_dir)
        (reset_optimizer_states a)
    else
      mkCheckpointing true restored (Some old_checkpoints_dir) false
  else
    mkCheckpointing false None None false.

End Logging.

(* ================================================================== *)
(** * scripts/split_lenses.py *)
(* ================================================================== *)

Module SplitLenses.

(** [range(start, stop, step)]; a zero step raises ValueError. *)
Definition py_range (start stop step : Z) : option (list Z) :=
  if (step =? 0)%Z then None
  else
    let n :=
      if (0 <? step)%Z then ((stop - start + step - 1) / step)%Z
      else ((start - stop - step - 1) / (- step))%Z in
    Some (map (fun i => (start + Z.of_nat i * step)%Z) (seq 0 (Z.to_nat n))).

(** [items // examples_per_shard + 1 * (items % examples_per_shard > 0)];
    a zero divisor raises ZeroDivisionError. *)
Definition num_shards (items examples_per_shard : Z) : option Z :=
  if (examples_per_shard =? 0)%Z then None
  else
    Some (items / examples_per_shard
          + 1 * (if (0 <? items mod examples_per_shard)%Z then 1 else 0))%Z.

(** The shards one worker writes:
    [range(THIS_WORKER - 1, shards, N_WORKERS)]. *)
Definition worker_shards (this_worker n_workers shards : Z) : option (list Z) :=
  py_range (this_worker - 1) shards n_workers.

Section Datasets.
Variable X : Type.

(** [dataset.take(count)] and [dataset.skip(count)] of a finite dataset,
    for a count that is not negative. *)
Definition take (count : nat) (dataset : list X) : list X := firstn count dataset.
Definition skip (count : nat) (dataset : list X) : list X := skipn count dataset.

(** [dataset.skip(shard * examples_per_shard).take(examples_per_shard)] *)
Definition shard_records (dataset : list X) (examples_per_shard shard : nat)
    : list X :=
  take examples_per_shard (skip (shard * examples_per_shard) dataset).

(** The records of the shards [0 .. shards-1], file after file. *)
Definition all_shards (dataset : list X) (examples_per_shard shards : nat)
    : list X :=
  concat (map (shard_records dataset examples_per_shard) (seq 0 shards)).

End Datasets.

End SplitLenses.

(* ================================================================== *)
(** * More concrete inputs *)
(* ================================================================== *)

Module MoreExamples.
Import TF Keras.

(** A trace that sits on the truth [Examples.batch] at both steps. *)
Definition exact_series : tensor R := mkTensor [2; 1; 1; 1; 2] (fun _ => 1%R).

(** Layers over a store that counts the batch normalisations run. *)
Definition batch_normalization (i : Encoder.slot) (training : bool)
    (x : tensor nat) (s : nat) : tensor nat * nat := (x, S s).

Definition spatial_dropout (rate : Q) (training : bool) (x : tensor nat) (s : nat)
    : tensor nat * nat := (x, s).

Definition get_activation (name : string) (x : tensor nat) : tensor nat := x.

Definition fresh (i : Encoder.slot) : unit := tt.

(** An epoch whose learning rate is below the limit. *)
Definition limit_epoch : TrainRim.epoch_obs :=
  TrainRim.mkObs false (TrainRim.Fin 1) (TrainRim.Fin 1) false true.

(** The state that epoch leaves when it is the first of a run. *)
Definition after_limit_epoch : TrainRim.loop_state :=
  TrainRim.mkLoop (TrainRim.Fin 1) TrainRim.Infinite false 2%Z
    [(1%Z, TrainRim.Fin 1)] [0].

(** [--checkpoints 0] *)
Definition zero_period_args : TrainRim.args :=
  TrainRim.mkArgs "uniform" "sqrt" "uniform" 2 3 TrainRim.Infinite
    (TrainRim.Fin 0) false 0%Z true.

(** [--patience 1] *)
Definition patient_args : TrainRim.args :=
  TrainRim.mkArgs "uniform" "sqrt" "uniform" 2 3 (TrainRim.Finite 1)
    (TrainRim.Fin 0) false 5%Z true.


Definition from_scratch : Logging.log_args :=
  Logging.mkLogArgs "None" None "RIMSUv3" "/models" true.

(** Five records. *)
Definition records : list nat := [10; 11; 12; 13; 14].

End MoreExamples.

(* ================================================================== *)
(** * The per-step weights in DTYPE *)
(* ================================================================== *)

Module Dtype.

(** A finite value of a binary floating-point type: [mantissa * 2 ^ exponent]. *)
Record binary_float : Type := mkFloat {
  mantissa : Z;
  exponent : Z
}.

Definition value (x : binary_float) : Q :=
  if (0 <=? exponent x)%Z
  then inject_Z (mantissa x * 2 ^ exponent x)
  else Qmake (mantissa x) (Z.to_pos (2 ^ (- exponent x))).

(** The operations of DTYPE that line 185 uses, whatever its precision and
    its rounding: the float 1, the float of an int, and the division. *)
Record arithmetic : Type := mkArithmetic {
  one : binary_float;
  of_int : Z -> binary_float;
  divide : binary_float -> binary_float -> binary_float
}.

(** [tf.ones(shape=(args.steps), dtype=DTYPE) / args.steps] *)
Definition uniform_time_weights (dtype : arithmetic) (steps : nat)
    : list binary_float :=
  map (fun x => divide dtype x (of_int dtype (Z.of_nat steps)))
      (repeat (one dtype) steps).

(** The sum of the values, without rounding. *)
Definition exact_sum (l : list binary_float) : Q :=
  fold_right Qplus 0%Q (map value l).

End Dtype.

(* ================================================================== *)
(** * Two runs of ten epochs *)
(* ================================================================== *)

Module Runs.




End Runs.

(* ================================================================== *)
(** * Properties of the recurrent block *)
(* ================================================================== *)

Unset Implicit Arguments.

Section BlockProperties.
Import TF Keras Block.
Variables A W : Type.
Variable conv2d : Conv2D W -> tensor A -> tensor A.
Variable ConvGRU_call : GRUCell W -> tensor A -> tensor A -> tensor A * tensor A.
Variable ConvGRUPlus_call : GRUCell W -> tensor A -> tensor A -> tensor A * tensor A.

Lemma even_extent (F : nat) : (2 * F) mod 2 = 0 /\ (2 * F) / 2 = F.
Proof.
  split.
  - rewrite Nat.mul_comm. apply Nat.Div0.mod_mul.
  - rewrite Nat.mul_comm. apply Nat.div_mul. discriminate.
Qed.

(** [tf.split(state, 2, axis=3)] of a state with [2 * F] channels yields
    its first [F] and its last [F] channels. *)
Lemma split2_halves (state : tensor A) (n h w F : nat) :
  shape state = [n; h; w; 2 * F] ->
  split2 state 3 = Some (first_half F state, second_half F state).
Proof.
  intros Hs. unfold split2, first_half, second_half. rewrite Hs.
  destruct (even_extent F) as [Hm Hd].
  change (nth 3 [n; h; w; 2 * F] 0) with (2 * F).
  change (3 <? length [n; h; w; 2 * F]) with true.
  cbv iota. cbv zeta. rewrite Hm, Hd. reflexivity.
Qed.

Lemma concat2_channels (a b : tensor A) (n h w ca cb : nat) :
  shape a = [n; h; w; ca] ->
  shape b = [n; h; w; cb] ->
  concat2 a b 3 = Some (channel_concat a b)
  /\ shape (channel_concat a b) = [n; h; w; ca + cb].
Proof.
  intros Ha Hb. unfold concat2, channel_concat. rewrite Ha, Hb.
  change (3 <? length [n; h; w; ca]) with true. cbv iota.
  change (remove_at 3 [n; h; w; ca]) with [n; h; w].
  change (remove_at 3 [n; h; w; cb]) with [n; h; w].
  destruct (list_eq_dec Nat.eq_dec [n; h; w] [n; h; w]) as [_ | Hne];
    [ | exfalso; apply Hne; reflexivity ].
  split; reflexivity.
Qed.

Lemma concat2_is_channel_concat (a b ht : tensor A) :
  concat2 a b 3 = Some ht -> ht = channel_concat a b.
Proof.
  unfold concat2, channel_concat. intros H.
  destruct (3 <? length (shape a)); [ | discriminate ].
  destruct (list_eq_dec Nat.eq_dec _ _); [ | discriminate ].
  destruct (length (shape a) =? length (shape b)); [ | discriminate ].
  injection H as <-. reflexivity.
Qed.

(** C1. For a hidden state of channel width 2F, the call of either block
    splits the state into its first and last F channels, feeds the first
    GRU cell with the inputs and the first half, sends its output through
    conv1, feeds the second cell with that and the second half, and, the
    cells returning states shaped like their slabs, returns the second
    cell's output together with the channel-axis concatenation of the two
    cell outputs: the first cell's output in the channels below F, the
    second cell's in the channels from F on.  Whatever the cells return,
    the call raises exactly when that concatenation does.  conv1 is
    tanh-activated, same-padded and of stride 1 in both constructors. *)
Theorem block_call_wiring :
  forall (self : block W) (inputs state : tensor A) (n h w F : nat),
    shape state = [n; h; w; 2 * F] ->
    let ht_11 := first_half F state in
    let ht_12 := second_half F state in
    split2 state 3 = Some (ht_11, ht_12)
    /\ (forall i j k l,
          val ht_11 [i; j; k; l] = val state [i; j; k; l]
          /\ val ht_12 [i; j; k; l] = val state [i; j; k; l + F])
    /\ (let gru_1_out := fst (ConvGRU_call (gru1 self) inputs ht_11) in
        let gru_1_outE := conv2d (conv1 self) gru_1_out in
        let gru_2_out := fst (ConvGRU_call (gru2 self) gru_1_outE ht_12) in
        (keeps_state_shape (ConvGRU_call (gru1 self)) [n; h; w; F] ->
         keeps_state_shape (ConvGRU_call (gru2 self)) [n; h; w; F] ->
         ConvGRUBlock_call conv2d ConvGRU_call self inputs state
         = Some (gru_2_out, channel_concat gru_1_out gru_2_out)
         /\ concat2 gru_1_out gru_2_out 3
            = Some (channel_concat gru_1_out gru_2_out)
         /\ forall i j k l,
              val (channel_concat gru_1_out gru_2_out) [i; j; k; l]
              = if l <? F then val gru_1_out [i; j; k; l]
                else val gru_2_out [i; j; k; l - F])
        /\ ConvGRUBlock_call conv2d ConvGRU_call self inputs state
           = option_map (fun ht => (gru_2_out, ht)) (concat2 gru_1_out gru_2_out 3))
    /\ (let gru_1_out := fst (ConvGRUPlus_call (gru1 self) inputs ht_11) in
        let gru_1_outE := conv2d (conv1 self) gru_1_out in
        let gru_2_out := fst (ConvGRUPlus_call (gru2 self) gru_1_outE ht_12) in
        (keeps_state_shape (ConvGRUPlus_call (gru1 self)) [n; h; w; F] ->
         keeps_state_shape (ConvGRUPlus_call (gru2 self)) [n; h; w; F] ->
         ConvGRUPlusBlock_call conv2d ConvGRUPlus_call self inputs state
         = Some (gru_2_out, channel_concat gru_1_out gru_2_out)
         /\ concat2 gru_1_out gru_2_out 3
            = Some (channel_concat gru_1_out gru_2_out)
         /\ forall i j k l,
              val (channel_concat gru_1_out gru_2_out) [i; j; k; l]
              = if l <? F then val gru_1_out [i; j; k; l]
                else val gru_2_out [i; j; k; l - F])
        /\ ConvGRUPlusBlock_call conv2d ConvGRUPlus_call self inputs state
           = option_map (fun ht => (gru_2_out, ht)) (concat2 gru_1_out gru_2_out 3))
    /\ (forall (wc w1 w2 : W) (filters : Z) (kernel_size : Py.value)
               (c : Conv2D W),
           c = conv1 (ConvGRUBlock_init wc w1 w2 filters kernel_size)
           \/ c = conv1 (ConvGRUPlusBlock_init wc w1 w2 filters kernel_size) ->
           activation c = Tanh /\ padding c = Same
           /\ strides c = Py.PTuple [Py.PInt 1; Py.PInt 1]).
Proof.
  intros self inputs state n h w F Hs ht_11 ht_12.
  pose proof (split2_halves state n h w F Hs) as Hsplit.
  assert (H1 : shape ht_11 = [n; h; w; F])
    by (subst ht_11; unfold first_half; rewrite Hs; reflexivity).
  assert (H2 : shape ht_12 = [n; h; w; F])
    by (subst ht_12; unfold second_half; rewrite Hs; reflexivity).
  split; [ exact Hsplit | ].
  split.
  { intros i j k l. subst ht_11 ht_12. unfold first_half, second_half.
    rewrite Hs. split; reflexivity. }
  split; [ | split ].
  - cbv zeta. split.
    + intros K1 K2.
      set (g1 := fst (ConvGRU_call (gru1 self) inputs ht_11)).
      set (g2 := fst (ConvGRU_call (gru2 self) (conv2d (conv1 self) g1) ht_12)).
      assert (S1 : shape g1 = [n; h; w; F]) by (apply K1; exact H1).
      assert (S2 : shape g2 = [n; h; w; F]) by (apply K2; exact H2).
      destruct (concat2_channels g1 g2 n h w F F S1 S2) as [Hc _].
      split; [ | split; [ exact Hc | ] ].
      * unfold ConvGRUBlock_call. rewrite Hsplit.
        change (match concat2 g1 g2 3 with
                | Some ht => Some (g2, ht)
                | None => None
                end = Some (g2, channel_concat g1 g2)).
        rewrite Hc. reflexivity.
      * intros i j k l. unfold channel_concat. cbn [val]. rewrite S1.
        reflexivity.
    + unfold ConvGRUBlock_call. rewrite Hsplit.
      destruct (concat2 _ _ 3); reflexivity.
  - cbv zeta. split.
    + intros K1 K2.
      set (g1 := fst (ConvGRUPlus_call (gru1 self) inputs ht_11)).
      set (g2 := fst (ConvGRUPlus_call (gru2 self) (conv2d (conv1 self) g1) ht_12)).
      assert (S1 : shape g1 = [n; h; w; F]) by (apply K1; exact H1).
      assert (S2 : shape g2 = [n; h; w; F]) by (apply K2; exact H2).
      destruct (concat2_channels g1 g2 n h w F F S1 S2) as [Hc _].
      split; [ | split; [ exact Hc | ] ].
      * unfold ConvGRUPlusBlock_call. rewrite Hsplit.
        change (match concat2 g1 g2 3 with
                | Some ht => Some (g2, ht)
                | None => None
                end = Some (g2, channel_concat g1 g2)).
        rewrite Hc. reflexivity.
      * intros i j k l. unfold channel_concat. cbn [val]. rewrite S1.
        reflexivity.
    + unfold ConvGRUPlusBlock_call. rewrite Hsplit.
      destruct (concat2 _ _ 3); reflexivity.
  - intros wc w1 w2 filters kernel_size c [-> | ->];
      repeat split; reflexivity.
Qed.

(** C3. A state of channel width 2F is split into two slabs of F
    channels each, of the state's batch and spatial extent; when each
    cell returns a state shaped like the slab it was given, the call
    returns, and the new hidden state has 2F channels and the batch and
    spatial extent of the prior state.  This holds for F = 0 as well. *)
Theorem block_channel_invariant :
  forall (self : block W) (inputs state : tensor A) (n h w F : nat),
    shape state = [n; h; w; 2 * F] ->
    exists ht_11 ht_12,
      split2 state 3 = Some (ht_11, ht_12)
      /\ shape ht_11 = [n; h; w; F]
      /\ shape ht_12 = [n; h; w; F]
      /\ (keeps_state_shape (ConvGRU_call (gru1 self)) [n; h; w; F] ->
          keeps_state_shape (ConvGRU_call (gru2 self)) [n; h; w; F] ->
          exists xt ht,
            ConvGRUBlock_call conv2d ConvGRU_call self inputs state = Some (xt, ht)
            /\ shape xt = [n; h; w; F]
            /\ shape ht = [n; h; w; 2 * F])
      /\ (keeps_state_shape (ConvGRUPlus_call (gru1 self)) [n; h; w; F] ->
          keeps_state_shape (ConvGRUPlus_call (gru2 self)) [n; h; w; F] ->
          exists xt ht,
            ConvGRUPlusBlock_call conv2d ConvGRUPlus_call self inputs state
            = Some (xt, ht)
            /\ shape xt = [n; h; w; F]
            /\ shape ht = [n; h; w; 2 * F]).
Proof.
  intros self inputs state n h w F Hs.
  pose proof (split2_halves state n h w F Hs) as Hsplit.
  assert (H1 : shape (first_half F state) = [n; h; w; F])
    by (unfold first_half; rewrite Hs; reflexivity).
  assert (H2 : shape (second_half F state) = [n; h; w; F])
    by (unfold second_half; rewrite Hs; reflexivity).
  exists (first_half F state), (second_half F state).
  repeat (split; [ assumption | ]).
  assert (HF : F + F = 2 * F) by lia.
  split; intros K1 K2.
  - unfold ConvGRUBlock_call. rewrite Hsplit.
    set (g1 := fst (ConvGRU_call (gru1 self) inputs (first_half F state))).
    set (g2 := fst (ConvGRU_call (gru2 self) (conv2d (conv1 self) g1)
                      (second_half F state))).
    assert (S1 : shape g1 = [n; h; w; F]) by (apply K1; exact H1).
    assert (S2 : shape g2 = [n; h; w; F]) by (apply K2; exact H2).
    destruct (concat2_channels g1 g2 n h w F F S1 S2) as [Hc Hsh].
    rewrite Hc. exists g2, (channel_concat g1 g2).
    rewrite Hsh, HF. repeat split; assumption.
  - unfold ConvGRUPlusBlock_call. rewrite Hsplit.
    set (g1 := fst (ConvGRUPlus_call (gru1 self) inputs (first_half F state))).
    set (g2 := fst (ConvGRUPlus_call (gru2 self) (conv2d (conv1 self) g1)
                      (second_half F state))).
    assert (S1 : shape g1 = [n; h; w; F]) by (apply K1; exact H1).
    assert (S2 : shape g2 = [n; h; w; F]) by (apply K2; exact H2).
    destruct (concat2_channels g1 g2 n h w F F S1 S2) as [Hc Hsh].
    rewrite Hc. exists g2, (channel_concat g1 g2).
    rewrite Hsh, HF. repeat split; assumption.
Qed.

(** C7. When the cells and conv1 of a ConvGRUBlock and of a
    ConvGRUPlusBlock compute the same functions, the two calls return the
    same (output, new state) pair, or both raise; and the two
    constructors build the same conv1 and the same cell hyper-parameters,
    so the variants differ in the cell class they instantiate only. *)
Theorem block_variants_same_wiring :
  forall (b bp : block W) (inputs state : tensor A),
    (forall x h, ConvGRU_call (gru1 b) x h = ConvGRUPlus_call (gru1 bp) x h) ->
    (forall x h, ConvGRU_call (gru2 b) x h = ConvGRUPlus_call (gru2 bp) x h) ->
    (forall x, conv2d (conv1 b) x = conv2d (conv1 bp) x) ->
    ConvGRUBlock_call conv2d ConvGRU_call b inputs state
    = ConvGRUPlusBlock_call conv2d ConvGRUPlus_call bp inputs state
    /\ forall (wc w1 w2 : W) (filters : Z) (kernel_size : Py.value),
         ConvGRUBlock_init wc w1 w2 filters kernel_size
         = ConvGRUPlusBlock_init wc w1 w2 filters kernel_size.
Proof.
  intros b bp inputs state E1 E2 Ec. split.
  - unfold ConvGRUBlock_call, ConvGRUPlusBlock_call.
    destruct (split2 state 3) as [[ht_11 ht_12] | ]; [ | reflexivity ].
    rewrite E1, Ec, E2. reflexivity.
  - intros. reflexivity.
Qed.

End BlockProperties.

(* ================================================================== *)
(** * Properties of the encoding stage *)
(* ================================================================== *)

Section EncoderProperties.
Import TF Keras Encoder.
Variables A W S : Type.
Variable conv2d : Conv2D W -> tensor A -> tensor A.
Variable batch_normalization : slot -> bool -> tensor A -> S -> tensor A * S.
Variable spatial_dropout : Q -> bool -> tensor A -> S -> tensor A * S.
Variable get_activation : string -> tensor A -> tensor A.
Variable fresh : slot -> W.

Local Abbreviation init := (ConvEncodingLayer_init fresh).
Local Abbreviation call := (ConvEncodingLayer_call conv2d batch_normalization
                    spatial_dropout get_activation).
Local Abbreviation call_skip := (ConvEncodingLayer_call_with_skip_connection conv2d
                         batch_normalization spatial_dropout get_activation).
Local Abbreviation down_call := (DownsamplingLayer_call conv2d batch_normalization
                         get_activation).
Local Abbreviation loop := (call_loop conv2d batch_normalization spatial_dropout
                    get_activation).
Local Abbreviation loop_skip := (skip_loop conv2d batch_normalization spatial_dropout
                         get_activation).
Local Abbreviation stack := (spec_stack conv2d batch_normalization spatial_dropout
                     get_activation fresh).
Local Abbreviation downsample := (spec_downsample conv2d batch_normalization
                          get_activation fresh).
Local Abbreviation forward := (spec_forward conv2d batch_normalization spatial_dropout
                       get_activation fresh).

Lemma bind_cong {X Y : Type} (m1 m2 : M S X) (k1 k2 : X -> M S Y) (s : S) :
  m1 s = m2 s ->
  (forall x s', k1 x s' = k2 x s') ->
  bind m1 k1 s = bind m2 k2 s.
Proof.
  intros Hm Hk. unfold bind. rewrite Hm.
  destruct (m2 s) as [[x s'] | ]; [ apply Hk | reflexivity ].
Qed.

Lemma nth_error_map_seq {X : Type} (f : nat -> X) (n i : nat) :
  i < n -> nth_error (map f (seq 0 n)) i = Some (f i).
Proof.
  intros Hi. rewrite nth_error_map.
  rewrite (nth_error_nth' (seq 0 n) 0) by (rewrite length_seq; exact Hi).
  rewrite seq_nth by exact Hi. reflexivity.
Qed.

(** The loop of [call] over the layers [i .. i+m-1] that [__init__]
    built runs the stack the spec describes. *)
Lemma call_loop_stack (args : config) (training : bool) :
  forall (m i : nat) (x : tensor A) (s : S),
    i + m <= arg_conv_layers args ->
    loop (init args)
      (combine (seq i m)
         (map (fun j => Conv2D_new (fresh (Stack j)) (arg_filters args)
                          (if Py.isinstance_int (arg_kernel_size args)
                           then Py.twice (arg_kernel_size args)
                           else arg_kernel_size args)
                          None (Some Same) None)
              (seq i m)))
      x training s
    = stack args training i m x s.
Proof.
  induction m as [ | m IH]; intros i x s Hle.
  - reflexivity.
  - cbn [seq map combine call_loop spec_stack].
    unfold bind at 1. unfold Conv2D_call at 1. unfold ret at 1.
    unfold bind at 1. unfold index.
    cbn [batch_norms ConvEncodingLayer_init].
    rewrite nth_error_map_seq by lia.
    unfold ret at 1.
    unfold spec_stack; fold (spec_stack conv2d batch_normalization
                               spatial_dropout get_activation fresh).
    unfold bind at 3. unfold spec_layer, spec_normalize, spec_dropout.
    cbn [dropout enc_activation ConvEncodingLayer_init].
    change (Conv2D_new (fresh (Stack i)) (arg_filters args)
              (if Py.isinstance_int (arg_kernel_size args)
               then Py.twice (arg_kernel_size args)
               else arg_kernel_size args) None (Some Same) None)
      with (spec_conv fresh args i).
    unfold activation_call, norm_call, dropout_call, bind, ret, lift.
    destruct (arg_batch_norm args); destruct (arg_dropout_rate args);
      repeat match goal with
             | |- context [batch_normalization ?a ?b ?c ?d] =>
                 destruct (batch_normalization a b c d)
             | |- context [spatial_dropout ?a ?b ?c ?d] =>
                 destruct (spatial_dropout a b c d)
             end;
      apply IH; lia.
Qed.

(** The convolution [DownsamplingLayer.__init__] is handed: Keras keeps
    the pair of strides the encoding layer made. *)
Lemma down_conv_spec (args : config) :
  conv (downsampling_layer (init args)) = spec_down_conv fresh args.
Proof.
  unfold spec_down_conv.
  cbn [conv downsampling_layer ConvEncodingLayer_init DownsamplingLayer_init].
  unfold Conv2D_new, normalize_tuple.
  destruct (arg_strides args); reflexivity.
Qed.

Lemma downsampling_call_spec (args : config) (training : bool)
    (x : tensor A) (s : S) :
  down_call (downsampling_layer (init args)) x training s
  = downsample args training x s.
Proof.
  unfold DownsamplingLayer_call, spec_downsample, spec_normalize.
  rewrite down_conv_spec.
  cbn [downsampling_layer ConvEncodingLayer_init DownsamplingLayer_init
       conv batch_norm down_activation].
  unfold Conv2D_call, activation_call, norm_call, bind, ret, lift.
  destruct (arg_batch_norm args); [ | reflexivity ].
  destruct (batch_normalization Down training _ s). reflexivity.
Qed.

Lemma init_loop_stack (args : config) (training : bool)
    (x : tensor A) (s : S) :
  loop (init args) (enumerate (conv_layers (init args))) x training s
  = stack args training 0 (arg_conv_layers args) x s.
Proof.
  unfold enumerate. cbn [conv_layers ConvEncodingLayer_init].
  rewrite length_map, length_seq.
  apply call_loop_stack. lia.
Qed.

(** C6. The call of a constructed encoding layer applies, for each of the
    N convolutions in order, the convolution, the normalisation (the
    identity when batch_norm is off), the activation and the dropout (the
    identity when dropout_rate is unset), and then the downsampling
    stage: a strided same-padding convolution, its own optional
    normalisation, the same activation. *)
Theorem encoding_call_order :
  forall (args : config) (x : tensor A) (training : bool) (s : S),
    call (init args) x training s = forward args training x s.
Proof.
  intros args x training s.
  unfold ConvEncodingLayer_call, spec_forward.
  apply bind_cong.
  - apply init_loop_stack.
  - intros y s1. unfold bind, ret. rewrite downsampling_call_spec.
    destruct (downsample args training y s1) as [[z s2] | ]; reflexivity.
Qed.

(** The two loops differ in the keyword handed to the activation only. *)
Lemma skip_loop_call_loop (self : ConvEncodingLayer W) (training : bool) :
  forall (todo : list (nat * Conv2D W)) (x : tensor A) (s : S),
    loop_skip self todo x training s = loop self todo x training s.
Proof.
  induction todo as [ | [i layer] rest IH]; intros x s.
  - reflexivity.
  - cbn [skip_loop call_loop].
    repeat (apply bind_cong; [ reflexivity | intros ? ? ]).
    apply IH.
Qed.

Lemma stack_returns (args : config) (training : bool) :
  forall (m i : nat) (x : tensor A) (s : S),
    exists y s', stack args training i m x s = Some (y, s').
Proof.
  induction m as [ | m IH]; intros i x s.
  - exists x, s. reflexivity.
  - cbn [spec_stack]. unfold bind at 1.
    unfold spec_layer, spec_normalize, spec_dropout, bind, ret, lift.
    destruct (arg_batch_norm args); destruct (arg_dropout_rate args);
      repeat match goal with
             | |- context [batch_normalization ?a ?b ?c ?d] =>
                 destruct (batch_normalization a b c d)
             | |- context [spatial_dropout ?a ?b ?c ?d] =>
                 destruct (spatial_dropout a b c d)
             end;
      apply IH.
Qed.

Lemma downsample_returns (args : config) (training : bool)
    (x : tensor A) (s : S) :
  exists y s', downsample args training x s = Some (y, s').
Proof.
  unfold spec_downsample, spec_normalize, bind, ret, lift.
  destruct (arg_batch_norm args).
  - destruct (batch_normalization Down training _ s) as [y s'].
    eexists; eexists; reflexivity.
  - eexists; eexists; reflexivity.
Qed.

(** C8. On a constructed encoding layer, call_with_skip_connection
    returns a pair (pre, down) in which down is the downsampling stage
    applied to pre, and down is what call returns on the same input with
    the same training flag, from the same store. *)
Theorem skip_connection_agrees_with_call :
  forall (args : config) (x : tensor A) (training : bool) (s : S),
    exists (pre down : tensor A) (s_mid s' : S),
      call_skip (init args) x training s = Some ((pre, down), s')
      /\ loop_skip (init args) (enumerate (conv_layers (init args)))
           x training s = Some (pre, s_mid)
      /\ down_call (downsampling_layer (init args)) pre training s_mid
         = Some (down, s')
      /\ call (init args) x training s = Some (down, s').
Proof.
  intros args x training s.
  destruct (stack_returns args training (arg_conv_layers args) 0 x s)
    as (pre & s_mid & Hpre).
  destruct (downsample_returns args training pre s_mid) as (down & s' & Hd).
  rewrite <- downsampling_call_spec in Hd.
  rewrite <- init_loop_stack in Hpre.
  exists pre, down, s_mid, s'.
  split; [ | split; [ | split ] ].
  - unfold ConvEncodingLayer_call_with_skip_connection, bind.
    rewrite skip_loop_call_loop, Hpre, Hd. reflexivity.
  - rewrite skip_loop_call_loop. exact Hpre.
  - exact Hd.
  - unfold ConvEncodingLayer_call, bind. rewrite Hpre, Hd. reflexivity.
Qed.

(** C10. In the constructor, an unset downsampling_kernel_size leaves the
    downsampling convolution with the layer's kernel_size argument
    unchanged and a set one is used as the pair of itself; an unset
    downsampling_filters gives the downsampling convolution the layer's
    filters, a set one is used as it is. *)
Theorem downsampling_defaults :
  forall (args : config),
    let down := conv (downsampling_layer (init args)) in
    kernel_size down
    = match arg_downsampling_kernel_size args with
      | None => arg_kernel_size args
      | Some k => Py.PTuple [k; k]
      end
    /\ filters down
       = match arg_downsampling_filters args with
         | None => enc_filters (init args)
         | Some f => f
         end
    /\ enc_filters (init args) = arg_filters args
    /\ downsampling_kernel_size (init args) = kernel_size down
    /\ downsampling_filters (init args) = filters down.
Proof.
  intros args. cbv zeta.
  cbn [conv downsampling_layer ConvEncodingLayer_init DownsamplingLayer_init
       Conv2D_new kernel_size filters enc_filters downsampling_kernel_size
       downsampling_filters].
  repeat split; destruct (arg_downsampling_kernel_size args);
    destruct (arg_downsampling_filters args); reflexivity.
Qed.

End EncoderProperties.

(* ================================================================== *)
(** * Properties of the loss and of the epoch loop *)
(* ================================================================== *)

Section LossProperties.
Import TF Num TrainRim.
Local Open Scope R_scope.

Lemma sum_upto_ext (n : nat) (f g : nat -> R) :
  (forall i, (i < n)%nat -> f i = g i) -> sum_upto n f = sum_upto n g.
Proof.
  induction n as [ | n IH]; intros E; cbn [sum_upto].
  - reflexivity.
  - rewrite IH by (intros i Hi; apply E; lia).
    rewrite E by lia. reflexivity.
Qed.

Lemma bdim_refl (a : nat) : bdim a a = Some a.
Proof. unfold bdim. rewrite Nat.eqb_refl. reflexivity. Qed.

Lemma bdim_1_r (a : nat) : bdim a 1 = Some a.
Proof.
  unfold bdim. destruct (a =? 1)%nat eqn:E; [ reflexivity | ].
  reflexivity.
Qed.

Lemma bdim_1_l (b : nat) : bdim 1 b = Some b.
Proof.
  unfold bdim. destruct (1 =? b)%nat eqn:E.
  - apply Nat.eqb_eq in E. subst. reflexivity.
  - reflexivity.
Qed.

Lemma bproj (d i : nat) : (i < d)%nat -> (if (d =? 1)%nat then 0%nat else i) = i.
Proof.
  intros Hi. destruct (d =? 1)%nat eqn:E; [ | reflexivity ].
  apply Nat.eqb_eq in E. lia.
Qed.

Lemma shape_tmap (f : R -> R) (t : tensor R) : shape (tmap f t) = shape t.
Proof. reflexivity. Qed.

Ltac bshape :=
  unfold broadcast_shape; cbn [rev app];
  repeat (cbn [bshape_rev]; rewrite ?bdim_refl, ?bdim_1_r, ?bdim_1_l);
  cbn [option_map rev app].

Lemma normalized_eval (g : R -> R) (k : tensor R) (B H W C : nat) :
  shape k = [B; H; W; C] ->
  exists w,
    normalized g k = Some w
    /\ shape w = [B; H; W; C]
    /\ forall b h x c,
         (b < B)%nat -> (h < H)%nat -> (x < W)%nat -> (c < C)%nat ->
         val w [b; h; x; c] = g (val k [b; h; x; c]) / sample_sum g k b.
Proof.
  intros Hs. unfold normalized, reduce_sum_keepdims, reduce_sum, sample_sum.
  rewrite ?shape_tmap, ?Hs.
  cbn [forallb length Nat.ltb Nat.leb andb fold_right set_nth firstn skipn app].
  unfold ewise. cbn [shape]. rewrite ?shape_tmap, ?Hs. bshape.
  eexists. split; [ reflexivity | ]. split; [ reflexivity | ].
  intros b h x c Hb Hh Hx Hc.
  cbn [val bindex length Nat.sub skipn combine map fst snd].
  rewrite !bproj by assumption.
  cbn [Nat.eqb].
  cbn [fold_right remove_at firstn skipn app reduce_axis val shape nth insert_at].
  rewrite ?shape_tmap, ?Hs.
  cbn [fold_right remove_at firstn skipn app reduce_axis val shape nth insert_at].
  reflexivity.
Qed.

Lemma uniform_eval (k : tensor R) (B H W C : nat) :
  shape k = [B; H; W; C] ->
  exists w,
    uniform_weights k = Some w
    /\ shape w = [B; H; W; C]
    /\ forall b h x c,
         val w [b; h; x; c] = 1 / INR (reduce_prod_tail_shape k).
Proof.
  intros Hs. unfold uniform_weights, ewise, ones_like, ones, scalar.
  cbn [shape]. rewrite Hs. bshape.
  eexists. split; [ reflexivity | ]. split; [ reflexivity | ].
  intros b h x c. reflexivity.
Qed.

Lemma sum_upto_const (n : nat) (c : R) : sum_upto n (fun _ => c) = INR n * c.
Proof.
  induction n as [ | n IH].
  - cbn. lra.
  - cbn [sum_upto]. rewrite IH, S_INR. lra.
Qed.

Lemma sum_upto_scal_r (n : nat) (f : nat -> R) (c : R) :
  sum_upto n (fun i => f i * c) = sum_upto n f * c.
Proof.
  induction n as [ | n IH]; cbn [sum_upto].
  - lra.
  - rewrite IH. lra.
Qed.

Lemma pixel_sum_ext (H W C : nat) (f g : nat -> nat -> nat -> R) :
  (forall h w c, (h < H)%nat -> (w < W)%nat -> (c < C)%nat -> f h w c = g h w c) ->
  pixel_sum H W C f = pixel_sum H W C g.
Proof.
  intros E. unfold pixel_sum.
  apply sum_upto_ext; intros h Hh.
  apply sum_upto_ext; intros w Hw.
  apply sum_upto_ext; intros c Hc.
  apply E; assumption.
Qed.

Lemma pixel_sum_scal_r (H W C : nat) (f : nat -> nat -> nat -> R) (a : R) :
  pixel_sum H W C (fun h w c => f h w c * a) = pixel_sum H W C f * a.
Proof.
  unfold pixel_sum.
  rewrite <- sum_upto_scal_r. apply sum_upto_ext; intros h _.
  rewrite <- sum_upto_scal_r. apply sum_upto_ext; intros w _.
  apply sum_upto_scal_r.
Qed.

Lemma pixel_sum_const (H W C : nat) (a : R) :
  pixel_sum H W C (fun _ _ _ => a) = INR (H * (W * (C * 1))) * a.
Proof.
  unfold pixel_sum.
  rewrite (sum_upto_ext H _ (fun _ => INR W * (INR C * a))).
  - rewrite sum_upto_const, !mult_INR. cbn [INR]. lra.
  - intros h _. rewrite (sum_upto_ext W _ (fun _ => INR C * a)).
    + apply sum_upto_const.
    + intros w _. apply sum_upto_const.
Qed.

Lemma sample_sum_pixel_sum (g : R -> R) (k : tensor R) (B H W C b : nat) :
  shape k = [B; H; W; C] ->
  sample_sum g k b = pixel_sum H W C (fun h w c => g (val k [b; h; w; c])).
Proof. intros Hs. unfold sample_sum. rewrite Hs. reflexivity. Qed.

(** Weights [g(k) / sum g(k)] of one sample sum to 1. *)
Lemma normalized_sums_to_one (g : R -> R) (k : tensor R) (B H W C b : nat) :
  shape k = [B; H; W; C] ->
  (b < B)%nat ->
  sample_sum g k b <> 0 ->
  exists w,
    normalized g k = Some w
    /\ shape w = [B; H; W; C]
    /\ pixel_sum H W C (fun h x c => val w [b; h; x; c]) = 1.
Proof.
  intros Hs Hb Hd.
  destruct (normalized_eval g k B H W C Hs) as (w & Hw & Hsh & Hv).
  exists w. split; [ exact Hw | ]. split; [ exact Hsh | ].
  rewrite (pixel_sum_ext H W C _
             (fun h x c => g (val k [b; h; x; c]) * / sample_sum g k b)).
  - rewrite pixel_sum_scal_r.
    rewrite <- (sample_sum_pixel_sum g k B H W C b Hs).
    apply Rinv_r. exact Hd.
  - intros h x c Hh Hx Hc. apply Hv; assumption.
Qed.

Lemma uniform_sums_to_one (k : tensor R) (B H W C b : nat) :
  shape k = [B; H; W; C] ->
  INR (reduce_prod_tail_shape k) <> 0 ->
  exists w,
    uniform_weights k = Some w
    /\ shape w = [B; H; W; C]
    /\ pixel_sum H W C (fun h x c => val w [b; h; x; c]) = 1.
Proof.
  intros Hs Hd.
  destruct (uniform_eval k B H W C Hs) as (w & Hw & Hsh & Hv).
  exists w. split; [ exact Hw | ]. split; [ exact Hsh | ].
  rewrite (pixel_sum_ext H W C _ (fun _ _ _ => 1 / INR (reduce_prod_tail_shape k)))
    by (intros; apply Hv).
  rewrite pixel_sum_const.
  unfold reduce_prod_tail_shape in *. rewrite Hs in *.
  cbn [tl fold_right] in *. field. exact Hd.
Qed.

(** Sums of the first integers and of their squares. *)
Lemma sum_linear (n : nat) (a b : R) :
  sum_upto n (fun t => 2 * (INR t + 1) / a / b) = INR n * (INR n + 1) / a / b.
Proof.
  induction n as [ | n IH]; cbn [sum_upto].
  - cbn [INR]. unfold Rdiv. ring.
  - rewrite IH, S_INR. unfold Rdiv. ring.
Qed.

Lemma sum_quadratic (n : nat) (a b c : R) :
  sum_upto n (fun t => 6 * (INR t + 1) ^ 2 / a / b / c)
  = INR n * (INR n + 1) * (2 * INR n + 1) / a / b / c.
Proof.
  induction n as [ | n IH]; cbn [sum_upto].
  - cbn [INR]. unfold Rdiv. ring.
  - rewrite IH, S_INR. unfold Rdiv. ring.
Qed.

Lemma INR_pos_ne (T : nat) : (1 <= T)%nat -> INR T <> 0 /\ INR T + 1 <> 0 /\ 2 * INR T + 1 <> 0.
Proof.
  intros HT. assert (0 < INR T) by (apply lt_0_INR; lia).
  repeat split; lra.
Qed.

(** C9, amended. In exact real arithmetic: for T >= 1 the per-step
    weights of each recognised scheme are 1/T, 2t/(T(T+1)) and
    6t^2/(T(T+1)(2T+1)) for t = 1..T, and sum to 1; for a sample whose
    pixels are not negative where the square root is taken and whose
    denominator is not zero, the per-pixel weights of each recognised
    scheme sum to 1 over the sample's pixels.  In DTYPE the weights are
    these values rounded, and their sum need not be 1. *)
Theorem loss_weights_sum_to_one :
  (forall (s : time_scheme) (T : nat),
      (1 <= T)%nat ->
      exists w,
        time_weights (time_scheme_name s) T = inr w
        /\ shape w = [T]
        /\ (forall t, (t < T)%nat -> val w [t] = time_weight_formula s T (t + 1))
        /\ sum_upto T (fun t => val w [t]) = 1)
  /\ (forall (s : pixel_scheme) (k : tensor R) (B H W C b : nat),
        shape k = [B; H; W; C] ->
        (b < B)%nat ->
        in_domain s k b ->
        denominator s k b <> 0 ->
        exists layer w,
          kappa_residual_weights (scheme_name s) = inr layer
          /\ source_residual_weights (scheme_name s) = inr layer
          /\ layer k = Some w
          /\ shape w = [B; H; W; C]
          /\ pixel_sum H W C (fun h x c => val w [b; h; x; c]) = 1).
Proof.
  split.
  - intros s T HT. destruct (INR_pos_ne T HT) as (N1 & N2 & N3).
    destruct s; cbn [time_scheme_name time_weights String.eqb Ascii.eqb Bool.eqb];
      eexists; (split; [ reflexivity | ]); (split; [ reflexivity | ]);
      cbn [tmap val shape ones range nth time_weight_formula].
    + split.
      * intros t _. reflexivity.
      * rewrite sum_upto_const. field. exact N1.
    + split.
      * intros t _. rewrite !plus_INR. cbn [INR]. field. split; assumption.
      * rewrite sum_linear, plus_INR. cbn [INR]. field. split; assumption.
    + split.
      * intros t _. rewrite ?plus_INR, ?mult_INR. cbn [INR]. field.
        repeat split; assumption.
      * rewrite sum_quadratic, ?plus_INR, ?mult_INR. cbn [INR]. field.
        repeat split; assumption.
  - intros s k B H W C b Hs Hb _ Hd.
    destruct s; cbn [denominator] in Hd.
    + destruct (uniform_sums_to_one k B H W C b Hs Hd) as (w & E1 & E2 & E3).
      exists uniform_weights, w. repeat split; assumption.
    + destruct (normalized_sums_to_one (fun x => x) k B H W C b Hs Hb Hd)
        as (w & E1 & E2 & E3).
      exists (normalized (fun x => x)), w. repeat split; assumption.
    + destruct (normalized_sums_to_one sqrt k B H W C b Hs Hb Hd)
        as (w & E1 & E2 & E3).
      exists (normalized sqrt), w. repeat split; assumption.
    + destruct (normalized_sums_to_one Rsqr k B H W C b Hs Hb Hd)
        as (w & E1 & E2 & E3).
      exists (normalized Rsqr), w. repeat split; assumption.
Qed.

(** ** The tensor operations of train_step, entry by entry *)

Lemma ewise_spec (f : R -> R -> R) (a b : tensor R) (s : list nat) :
  broadcast_shape (shape a) (shape b) = Some s ->
  exists r,
    ewise f a b = Some r
    /\ shape r = s
    /\ forall idx,
         val r idx
         = f (val a (bindex (shape a) idx)) (val b (bindex (shape b) idx)).
Proof.
  intros Hb. unfold ewise. rewrite Hb.
  eexists. split; [ reflexivity | ]. split; [ reflexivity | ].
  intros idx. reflexivity.
Qed.

Ltac bindices :=
  cbn [bindex length Nat.sub skipn combine map fst snd Nat.eqb];
  rewrite ?bproj by assumption.

(** A series against a batch: the batch is repeated along the steps. *)
Lemma ewise_series_batch (f : R -> R -> R) (x y : tensor R) (T B H W C : nat) :
  shape x = [T; B; H; W; C] ->
  shape y = [B; H; W; C] ->
  exists r,
    ewise f x y = Some r
    /\ shape r = [T; B; H; W; C]
    /\ forall t b h w c,
         (t < T)%nat -> (b < B)%nat -> (h < H)%nat -> (w < W)%nat -> (c < C)%nat ->
         val r [t; b; h; w; c]
         = f (val x [t; b; h; w; c]) (val y [b; h; w; c]).
Proof.
  intros Hx Hy.
  destruct (ewise_spec f x y [T; B; H; W; C]) as (r & Hr & Hs & Hv).
  { rewrite Hx, Hy. bshape. reflexivity. }
  exists r. split; [ exact Hr | ]. split; [ exact Hs | ].
  intros t b h w c Ht Hb Hh Hw Hc. rewrite Hv, Hx, Hy. bindices. reflexivity.
Qed.

Lemma ewise_batch_series (f : R -> R -> R) (x y : tensor R) (T B H W C : nat) :
  shape x = [B; H; W; C] ->
  shape y = [T; B; H; W; C] ->
  exists r,
    ewise f x y = Some r
    /\ shape r = [T; B; H; W; C]
    /\ forall t b h w c,
         (t < T)%nat -> (b < B)%nat -> (h < H)%nat -> (w < W)%nat -> (c < C)%nat ->
         val r [t; b; h; w; c]
         = f (val x [b; h; w; c]) (val y [t; b; h; w; c]).
Proof.
  intros Hx Hy.
  destruct (ewise_spec f x y [T; B; H; W; C]) as (r & Hr & Hs & Hv).
  { rewrite Hx, Hy. bshape. reflexivity. }
  exists r. split; [ exact Hr | ]. split; [ exact Hs | ].
  intros t b h w c Ht Hb Hh Hw Hc. rewrite Hv, Hx, Hy. bindices. reflexivity.
Qed.

(** The column of step weights against the per-step costs. *)
Lemma ewise_steps_costs (f : R -> R -> R) (x y : tensor R) (T B : nat) :
  shape x = [T; 1%nat] ->
  shape y = [T; B] ->
  exists r,
    ewise f x y = Some r
    /\ shape r = [T; B]
    /\ forall t b,
         (t < T)%nat -> (b < B)%nat ->
         val r [t; b] = f (val x [t; 0%nat]) (val y [t; b]).
Proof.
  intros Hx Hy.
  destruct (ewise_spec f x y [T; B]) as (r & Hr & Hs & Hv).
  { rewrite Hx, Hy. bshape. reflexivity. }
  exists r. split; [ exact Hr | ]. split; [ exact Hs | ].
  intros t b Ht Hb. rewrite Hv, Hx, Hy. bindices. reflexivity.
Qed.

Lemma ewise_vectors (f : R -> R -> R) (x y : tensor R) (B : nat) :
  shape x = [B] ->
  shape y = [B] ->
  exists r,
    ewise f x y = Some r
    /\ shape r = [B]
    /\ forall b, (b < B)%nat -> val r [b] = f (val x [b]) (val y [b]).
Proof.
  intros Hx Hy.
  destruct (ewise_spec f x y [B]) as (r & Hr & Hs & Hv).
  { rewrite Hx, Hy. bshape. reflexivity. }
  exists r. split; [ exact Hr | ]. split; [ exact Hs | ].
  intros b Hb. rewrite Hv, Hx, Hy. bindices. reflexivity.
Qed.

Lemma reduce_sum_pixels (x : tensor R) (T B H W C : nat) :
  shape x = [T; B; H; W; C] ->
  exists r,
    reduce_sum [2; 3; 4]%nat x = Some r
    /\ shape r = [T; B]
    /\ forall t b,
         val r [t; b] = pixel_sum H W C (fun h w c => val x [t; b; h; w; c]).
Proof.
  intros Hx. unfold reduce_sum. rewrite Hx.
  cbn [forallb length Nat.ltb Nat.leb andb].
  eexists. split; [ reflexivity | ].
  cbn [fold_right reduce_axis shape val]. rewrite Hx.
  cbn [remove_at firstn skipn app nth insert_at].
  split; [ reflexivity | ].
  intros t b. reflexivity.
Qed.

Lemma reduce_sum_steps (x : tensor R) (T B : nat) :
  shape x = [T; B] ->
  exists r,
    reduce_sum [0]%nat x = Some r
    /\ shape r = [B]
    /\ forall b, val r [b] = sum_upto T (fun t => val x [t; b]).
Proof.
  intros Hx. unfold reduce_sum. rewrite Hx.
  cbn [forallb length Nat.ltb Nat.leb andb].
  eexists. split; [ reflexivity | ].
  cbn [fold_right reduce_axis shape val]. rewrite Hx.
  cbn [remove_at firstn skipn app nth insert_at].
  split; [ reflexivity | ].
  intros b. reflexivity.
Qed.

Lemma reduce_sum_all_vector (x : tensor R) (B : nat) :
  shape x = [B] ->
  reduce_sum_all x = sum_upto B (fun b => val x [b]).
Proof.
  intros Hx. unfold reduce_sum_all. rewrite Hx.
  cbn [length seq fold_right reduce_axis shape val]. rewrite Hx.
  reflexivity.
Qed.

(** One field of the cost: lines 280 and 283 for the source, 281 and 284
    for kappa. *)
Lemma field_cost (w series truth wts : tensor R) (T B H W C : nat) :
  shape wts = [T; 1%nat] ->
  shape w = [B; H; W; C] ->
  shape series = [T; B; H; W; C] ->
  shape truth = [B; H; W; C] ->
  exists res prod cost1 weighted cost,
    ewise Rminus series truth = Some res
    /\ ewise Rmult w (tmap Rsqr res) = Some prod
    /\ reduce_sum [2; 3; 4]%nat prod = Some cost1
    /\ ewise Rmult wts cost1 = Some weighted
    /\ reduce_sum [0]%nat weighted = Some cost
    /\ shape cost = [B]
    /\ forall b, (b < B)%nat ->
         val cost [b]
         = field_loss T H W C (fun t => val wts [t; 0%nat]) w series truth b.
Proof.
  intros Swt Sw Ss St.
  destruct (ewise_series_batch Rminus series truth T B H W C Ss St)
    as (res & E1 & S1 & V1).
  destruct (ewise_batch_series Rmult w (tmap Rsqr res) T B H W C Sw)
    as (prod & E2 & S2 & V2); [ rewrite shape_tmap; exact S1 | ].
  destruct (reduce_sum_pixels prod T B H W C S2) as (cost1 & E3 & S3 & V3).
  destruct (ewise_steps_costs Rmult wts cost1 T B Swt S3)
    as (weighted & E4 & S4 & V4).
  destruct (reduce_sum_steps weighted T B S4) as (cost & E5 & S5 & V5).
  exists res, prod, cost1, weighted, cost.
  repeat (split; [ assumption | ]).
  intros b Hb. rewrite V5. unfold field_loss.
  apply sum_upto_ext; intros t Ht.
  rewrite V4 by assumption. rewrite V3. f_equal.
  apply pixel_sum_ext; intros h x c Hh Hx Hc.
  rewrite V2 by assumption. cbn [tmap val].
  rewrite V1 by assumption. reflexivity.
Qed.

Lemma train_step_general
    (sil kil : tensor R -> tensor R) (weights : loss_weights) (batch_size : Z)
    (source kappa source_series kappa_series w_source w_kappa : tensor R)
    (T B Hs Ws Cs Hk Wk Ck : nat) :
  shape (wt weights) = [T; 1%nat] ->
  ws weights source = Some w_source ->
  shape w_source = [B; Hs; Ws; Cs] ->
  wk weights kappa = Some w_kappa ->
  shape w_kappa = [B; Hk; Wk; Ck] ->
  shape source_series = [T; B; Hs; Ws; Cs] ->
  shape kappa_series = [T; B; Hk; Wk; Ck] ->
  shape (sil source) = [B; Hs; Ws; Cs] ->
  shape (kil kappa) = [B; Hk; Wk; Ck] ->
  train_step sil kil weights batch_size source kappa source_series kappa_series
  = Some (spec_loss sil kil weights batch_size T B Hs Ws Cs Hk Wk Ck
            w_source w_kappa source kappa source_series kappa_series).
Proof.
  intros Hwt Hws Sws Hwk Swk Sss Sks Ssl Skl.
  destruct (field_cost w_source source_series (sil source) (wt weights)
              T B Hs Ws Cs Hwt Sws Sss Ssl)
    as (sres & sprod & scost1 & swt & scost & A1 & A2 & A3 & A4 & A5 & A6 & A7).
  destruct (field_cost w_kappa kappa_series (kil kappa) (wt weights)
              T B Hk Wk Ck Hwt Swk Sks Skl)
    as (kres & kprod & kcost1 & kwt & kcost & B1 & B2 & B3 & B4 & B5 & B6 & B7).
  destruct (ewise_vectors Rplus kcost scost B B6 A6) as (total & E & St & Vt).
  unfold train_step.
  rewrite Hws; cbn [obind]. rewrite A1; cbn [obind]. rewrite A2; cbn [obind].
  rewrite A3; cbn [obind]. rewrite Hwk; cbn [obind]. rewrite B1; cbn [obind].
  rewrite B2; cbn [obind]. rewrite B3; cbn [obind]. rewrite A4; cbn [obind].
  rewrite A5; cbn [obind]. rewrite B4; cbn [obind]. rewrite B5; cbn [obind].
  rewrite E; cbn [obind].
  f_equal. unfold spec_loss. f_equal.
  rewrite (reduce_sum_all_vector total B St).
  apply sum_upto_ext; intros b Hb.
  rewrite Vt, A7, B7 by assumption. apply Rplus_comm.
Qed.

(** ** What the setup hands to train_step *)

Lemma time_weights_shape (name : string) (T : nat) (w : tensor R) :
  time_weights name T = inr w -> shape w = [T].
Proof.
  unfold time_weights. intros E.
  destruct (name =? "uniform")%string; [ injection E as <-; reflexivity | ].
  destruct (name =? "linear")%string; [ injection E as <-; reflexivity | ].
  destruct (name =? "quadratic")%string; [ injection E as <-; reflexivity | ].
  discriminate.
Qed.

Lemma uniform_keeps_shape : keeps_batch_shape uniform_weights.
Proof.
  intros k B H W C Hs.
  destruct (uniform_eval k B H W C Hs) as (w & E & S & _).
  exists w. split; assumption.
Qed.

Lemma normalized_keeps_shape (g : R -> R) : keeps_batch_shape (normalized g).
Proof.
  intros k B H W C Hs.
  destruct (normalized_eval g k B H W C Hs) as (w & E & S & _).
  exists w. split; assumption.
Qed.

Lemma kappa_layer_keeps_shape (name : string) layer :
  kappa_residual_weights name = inr layer -> keeps_batch_shape layer.
Proof.
  unfold kappa_residual_weights. intros E.
  destruct (name =? "uniform")%string;
    [ injection E as <-; apply uniform_keeps_shape | ].
  destruct (name =? "linear")%string;
    [ injection E as <-; apply normalized_keeps_shape | ].
  destruct (name =? "sqrt")%string;
    [ injection E as <-; apply normalized_keeps_shape | ].
  destruct (name =? "quadratic")%string;
    [ injection E as <-; apply normalized_keeps_shape | ].
  discriminate.
Qed.

Lemma source_layer_keeps_shape (name : string) layer :
  source_residual_weights name = inr layer -> keeps_batch_shape layer.
Proof.
  unfold source_residual_weights. intros E.
  destruct (name =? "uniform")%string;
    [ injection E as <-; apply uniform_keeps_shape | ].
  destruct (name =? "linear")%string;
    [ injection E as <-; apply normalized_keeps_shape | ].
  destruct (name =? "quadratic")%string;
    [ injection E as <-; apply normalized_keeps_shape | ].
  destruct (name =? "sqrt")%string;
    [ injection E as <-; apply normalized_keeps_shape | ].
  discriminate.
Qed.

Lemma setup_weights_shapes (tname kname sname : string) (T : nat)
    (weights : loss_weights) :
  setup_weights tname kname sname T = inr weights ->
  shape (wt weights) = [T; 1%nat]
  /\ keeps_batch_shape (wk weights)
  /\ keeps_batch_shape (ws weights).
Proof.
  unfold setup_weights. intros E.
  destruct (time_weights tname T) as [ | w0] eqn:Et; [ discriminate | ].
  destruct (kappa_residual_weights kname) as [ | lk] eqn:Ek; [ discriminate | ].
  destruct (source_residual_weights sname) as [ | ls] eqn:Es; [ discriminate | ].
  injection E as <-. cbn [wt wk ws].
  split; [ | split ].
  - unfold newaxis_last. cbn [shape].
    rewrite (time_weights_shape tname T w0 Et). reflexivity.
  - apply (kappa_layer_keeps_shape kname). exact Ek.
  - apply (source_layer_keeps_shape sname). exact Es.
Qed.

(** C2. For weights set up from recognised scheme names, a T-step trace
    and ground truths of matching shapes, the cost of train_step is the
    doubly weighted sum: per field and sample, the per-pixel weights
    times the squared difference between each step's estimate and the
    inverse link of the truth, summed over pixels, weighted by w_t and
    summed over steps; then summed over the two fields and the batch
    and divided by the batch size.  The arithmetic is that of the real
    numbers. *)
Theorem train_step_is_weighted_sum :
  forall (tname kname sname : string) (T B Hs Ws Cs Hk Wk Ck : nat)
         (weights : loss_weights) (sil kil : tensor R -> tensor R)
         (batch_size : Z)
         (source kappa source_series kappa_series : tensor R),
    setup_weights tname kname sname T = inr weights ->
    shape source = [B; Hs; Ws; Cs] ->
    shape kappa = [B; Hk; Wk; Ck] ->
    shape source_series = [T; B; Hs; Ws; Cs] ->
    shape kappa_series = [T; B; Hk; Wk; Ck] ->
    shape (sil source) = [B; Hs; Ws; Cs] ->
    shape (kil kappa) = [B; Hk; Wk; Ck] ->
    exists w_source w_kappa,
      ws weights source = Some w_source
      /\ wk weights kappa = Some w_kappa
      /\ train_step sil kil weights batch_size
           source kappa source_series kappa_series
         = Some (spec_loss sil kil weights batch_size T B Hs Ws Cs Hk Wk Ck
                   w_source w_kappa source kappa source_series kappa_series).
Proof.
  intros tname kname sname T B Hs Ws Cs Hk Wk Ck weights sil kil batch_size
    source kappa source_series kappa_series Hsetup Ss Sk Sss Sks Ssl Skl.
  destruct (setup_weights_shapes tname kname sname T weights Hsetup)
    as (Hwt & Kk & Ks).
  destruct (Ks source B Hs Ws Cs Ss) as (w_source & Hws & Sws).
  destruct (Kk kappa B Hk Wk Ck Sk) as (w_kappa & Hwk & Swk).
  exists w_source, w_kappa.
  split; [ exact Hws | ]. split; [ exact Hwk | ].
  apply train_step_general; assumption.
Qed.

(** ** Validation of the scheme names *)

(** C5. A time-weighting name outside 'uniform', 'linear', 'quadratic',
    or a per-pixel weighting name outside 'uniform', 'linear',
    'quadratic', 'sqrt' for either field, raises ValueError in the
    setup, so that main ends before the epoch loop is entered; for
    recognised names the setup raises nothing. *)
Theorem weight_scheme_validation :
  (forall (name : string) (steps : nat),
      (recognized_time name = true ->
       exists w, time_weights name steps = inr w)
      /\ (recognized_time name = false ->
          exists msg, time_weights name steps = inl (ValueError msg)))
  /\ (forall (name : string),
        (recognized_pixel name = true ->
         exists lk ls,
           kappa_residual_weights name = inr lk
           /\ source_residual_weights name = inr ls)
        /\ (recognized_pixel name = false ->
            exists mk ms,
              kappa_residual_weights name = inl (ValueError mk)
              /\ source_residual_weights name = inl (ValueError ms)))
  /\ (forall (a : args) (obs : nat -> epoch_obs),
        (recognized_time (time_weights_arg a)
         && recognized_pixel (kappa_residual_weights_arg a)
         && recognized_pixel (source_residual_weights_arg a) = true ->
         exists raised final, main a obs = Trained raised final)
        /\ (recognized_time (time_weights_arg a)
            && recognized_pixel (kappa_residual_weights_arg a)
            && recognized_pixel (source_residual_weights_arg a) = false ->
            exists msg, main a obs = SetupRaised (ValueError msg))).
Proof.
  assert (Ht : forall name steps,
    (recognized_time name = true -> exists w, time_weights name steps = inr w)
    /\ (recognized_time name = false ->
        exists msg, time_weights name steps = inl (ValueError msg))).
  { intros name steps. unfold recognized_time, time_weights.
    destruct (name =? "uniform")%string;
      [ split; [ eauto | discriminate ] | ].
    destruct (name =? "linear")%string;
      [ split; [ eauto | discriminate ] | ].
    destruct (name =? "quadratic")%string;
      [ split; [ eauto | discriminate ] | ].
    split; [ discriminate | eauto ]. }
  assert (Hp : forall name,
    (recognized_pixel name = true ->
     exists lk ls, kappa_residual_weights name = inr lk
                   /\ source_residual_weights name = inr ls)
    /\ (recognized_pixel name = false ->
        exists mk ms, kappa_residual_weights name = inl (ValueError mk)
                      /\ source_residual_weights name = inl (ValueError ms))).
  { intros name.
    unfold recognized_pixel, kappa_residual_weights, source_residual_weights.
    destruct (name =? "uniform")%string;
      [ split; [ eauto | discriminate ] | ].
    destruct (name =? "linear")%string;
      [ split; [ eauto | discriminate ] | ].
    destruct (name =? "quadratic")%string;
      destruct (name =? "sqrt")%string;
      cbn [orb]; split; try discriminate; eauto. }
  split; [ exact Ht | ]. split; [ exact Hp | ].
  intros a obs. unfold main, setup_weights.
  destruct (Ht (time_weights_arg a) (steps a)) as [T1 T0].
  destruct (Hp (kappa_residual_weights_arg a)) as [K1 K0].
  destruct (Hp (source_residual_weights_arg a)) as [S1 S0].
  destruct (recognized_time (time_weights_arg a)).
  - destruct (T1 eq_refl) as (w & ->).
    destruct (recognized_pixel (kappa_residual_weights_arg a)).
    + destruct (K1 eq_refl) as (lk & ? & -> & _).
      destruct (recognized_pixel (source_residual_weights_arg a)).
      * destruct (S1 eq_refl) as (? & ls & _ & ->).
        split; [ eauto | discriminate ].
      * destruct (S0 eq_refl) as (? & ms & _ & ->).
        split; [ discriminate | eauto ].
    + destruct (K0 eq_refl) as (mk & ? & -> & _).
      split; [ discriminate | eauto ].
  - destruct (T0 eq_refl) as (msg & ->).
    split; [ discriminate | eauto ].
Qed.

(** ** The epoch loop *)

Lemma after_epoch_saved (a : args) (i : nat) (o : epoch_obs) (s : loop_state) :
  match after_epoch a i o s with
  | Next s' | Break s' | Raise _ s' =>
      forall e', In e' (saved s') -> In e' (saved s) \/ e' = i
  end.
Proof.
  unfold after_epoch.
  destruct (isnan _); [ now left | ].
  destruct (flt _ _); destruct (past_max_time o); destruct (save_checkpoint a);
    cbn [best_loss TrainRim.patience out_of_time lastest_checkpoint score_sheet saved];
    repeat match goal with
           | |- context [if ?b then _ else _] => destruct b
           end;
    cbn [saved]; intros e' He'; rewrite ?in_app_iff in He'; cbn [In] in He';
    intuition.
Qed.

Lemma epoch_body_saved (a : args) (i : nat) (o : epoch_obs) (s : loop_state) :
  match epoch_body a i o s with
  | Next s' | Break s' | Raise _ s' =>
      forall e', In e' (saved s') -> In e' (saved s) \/ e' = i
  end.
Proof.
  unfold epoch_body. destruct (no_time_for_epoch o); [ now left | ].
  apply after_epoch_saved.
Qed.

Lemma epoch_body_nan (a : args) (i : nat) (o : epoch_obs) (s : loop_state) :
  isnan (tracked_cost a o) = true -> epoch_body a i o s = Break s.
Proof.
  unfold epoch_body, after_epoch, tracked_cost. intros ->.
  destruct (no_time_for_epoch o); reflexivity.
Qed.

Lemma run_epochs_nan (a : args) (obs : nat -> epoch_obs) (e : nat) :
  isnan (tracked_cost a (obs e)) = true ->
  forall (m i : nat) (s : loop_state),
    (forall e', In e' (saved s) -> (e' < i)%nat) ->
    (i <= e)%nat ->
    forall e', In e' (saved (snd (run_epochs a obs (seq i m) s))) -> (e' < e)%nat.
Proof.
  intros Hnan. induction m as [ | m IH]; intros i s Hs Hi e' He'.
  - cbn in He'. specialize (Hs e' He'). lia.
  - cbn [seq run_epochs] in He'.
    destruct (Nat.eq_dec i e) as [-> | Hne].
    + rewrite (epoch_body_nan a e (obs e) s Hnan) in He'.
      cbn in He'. apply Hs. exact He'.
    + pose proof (epoch_body_saved a i (obs i) s) as Hb.
      destruct (epoch_body a i (obs i) s) as [s' | s' | x s'].
      * apply (IH (S i) s'); [ | lia | exact He' ].
        intros e0 H0. destruct (Hb e0 H0) as [H1 | ->]; [ | lia ].
        specialize (Hs e0 H1). lia.
      * cbn in He'. destruct (Hb e' He') as [H1 | ->]; [ | lia ].
        specialize (Hs e' H1). lia.
      * cbn in He'. destruct (Hb e' He') as [H1 | ->]; [ | lia ].
        specialize (Hs e' H1). lia.
Qed.

(** C4, amended. When the tracked cost is NaN at the end of an epoch,
    the loop breaks there, before the checkpoint branch, and no
    checkpoint is saved in that epoch or in a later one. *)
Theorem nan_cost_stops_training :
  forall (a : args) (obs : nat -> epoch_obs) (e : nat),
    isnan (tracked_cost a (obs e)) = true ->
    (forall s, epoch_body a e (obs e) s = Break s)
    /\ (forall e', In e' (saved (snd (training_loop a obs))) -> (e' < e)%nat).
Proof.
  intros a obs e Hnan. split.
  - intros s. apply epoch_body_nan. exact Hnan.
  - unfold training_loop.
    apply (run_epochs_nan a obs e Hnan (epochs a) 0 (initial_state a)).
    + intros e' []. 
    + lia.
Qed.
End LossProperties.

(* ================================================================== *)
(** * The properties at the concrete inputs *)
(* ================================================================== *)

Lemma block_call_wiring_at_example :
  Block.ConvGRUBlock_call Examples.conv2d Examples.cell Examples.gru_block
    Examples.inputs Examples.state
  = Some (Block.second_half 2 Examples.state,
          Block.channel_concat (Block.first_half 2 Examples.state)
            (Block.second_half 2 Examples.state))
  /\ Block.ConvGRUPlusBlock_call Examples.conv2d Examples.cell Examples.gru_block
       Examples.inputs Examples.state
     = Some (Block.second_half 2 Examples.state,
             Block.channel_concat (Block.first_half 2 Examples.state)
               (Block.second_half 2 Examples.state)).
Proof.
  destruct (block_call_wiring nat unit Examples.conv2d Examples.cell
              Examples.cell Examples.gru_block Examples.inputs
              Examples.state 1 2 2 2 eq_refl)
    as (_ & _ & (K & _) & (Kp & _) & _).
  split.
  - apply K; intros x h Hs; exact Hs.
  - apply Kp; intros x h Hs; exact Hs.
Defined.

Lemma block_channel_invariant_at_example :
  exists xt ht,
    Block.ConvGRUBlock_call Examples.conv2d Examples.cell Examples.gru_block
      Examples.inputs Examples.state = Some (xt, ht)
    /\ TF.shape xt = [1; 2; 2; 2]
    /\ TF.shape ht = [1; 2; 2; 2 * 2].
Proof.
  destruct (block_channel_invariant nat unit Examples.conv2d Examples.cell
              Examples.cell Examples.gru_block Examples.inputs
              Examples.state 1 2 2 2 eq_refl)
    as (ht_11 & ht_12 & _ & _ & _ & K & _).
  apply K; intros x h Hs; exact Hs.
Defined.

Lemma block_variants_same_wiring_at_example :
  Block.ConvGRUBlock_call Examples.conv2d Examples.cell Examples.gru_block
    Examples.inputs Examples.state
  = Block.ConvGRUPlusBlock_call Examples.conv2d Examples.cell
      Examples.gru_plus_block Examples.inputs Examples.state
  /\ forall (wc w1 w2 : unit) (filters : Z) (kernel_size : Py.value),
       Block.ConvGRUBlock_init wc w1 w2 filters kernel_size
       = Block.ConvGRUPlusBlock_init wc w1 w2 filters kernel_size.
Proof.
  apply (block_variants_same_wiring nat unit Examples.conv2d Examples.cell
           Examples.cell Examples.gru_block Examples.gru_plus_block
           Examples.inputs Examples.state);
    intros; reflexivity.
Defined.

Lemma train_step_is_weighted_sum_at_example :
  exists w_source w_kappa,
    TrainRim.ws Examples.weights Examples.batch = Some w_source
    /\ TrainRim.wk Examples.weights Examples.batch = Some w_kappa
    /\ TrainRim.train_step Examples.identity_link Examples.identity_link
         Examples.weights 1%Z Examples.batch Examples.batch
         Examples.series Examples.series
       = Some (TrainRim.spec_loss Examples.identity_link Examples.identity_link
                 Examples.weights 1%Z 2 1 1 1 2 1 1 2 w_source w_kappa
                 Examples.batch Examples.batch Examples.series Examples.series).
Proof.
  apply (train_step_is_weighted_sum "uniform" "sqrt" "uniform"
           2 1 1 1 2 1 1 2 Examples.weights
           Examples.identity_link Examples.identity_link 1%Z
           Examples.batch Examples.batch Examples.series Examples.series);
    reflexivity.
Defined.

Lemma nan_cost_stops_training_at_example :
  (forall s, TrainRim.epoch_body Examples.run_args 0 (Examples.nan_epochs 0) s
             = TrainRim.Break s)
  /\ (forall e',
        In e' (TrainRim.saved
                 (snd (TrainRim.training_loop Examples.run_args Examples.nan_epochs))) ->
        e' < 0).
Proof.
  exact (nan_cost_stops_training Examples.run_args Examples.nan_epochs 0 eq_refl).
Defined.

(** C4, as stated: an infinite cost is not finite, yet the first epoch
    goes on past the test and saves a checkpoint. *)
Lemma infinite_cost_is_checkpointed :
  TrainRim.is_finite
    (TrainRim.tracked_cost Examples.run_args (Examples.inf_epochs 0)) = false
  /\ TrainRim.epoch_body Examples.run_args 0 (Examples.inf_epochs 0)
       (TrainRim.initial_state Examples.run_args)
     <> TrainRim.Break (TrainRim.initial_state Examples.run_args)
  /\ In 0 (TrainRim.saved
             (snd (TrainRim.training_loop Examples.run_args Examples.inf_epochs))).
Proof.
  split; [ reflexivity | ]. split.
  - vm_compute. discriminate.
  - vm_compute. left. reflexivity.
Qed.

Lemma weight_scheme_validation_at_example :
  exists msg,
    TrainRim.main Examples.bad_args Examples.nan_epochs
    = TrainRim.SetupRaised (TrainRim.ValueError msg).
Proof.
  apply (proj2 (proj2 (proj2 weight_scheme_validation)
                  Examples.bad_args Examples.nan_epochs)).
  reflexivity.
Defined.

Lemma loss_weights_sum_to_one_at_example :
  (exists w,
      TrainRim.time_weights "linear" 3 = inr w
      /\ TF.shape w = [3]
      /\ (forall t, t < 3 ->
            TF.val w [t] = TrainRim.time_weight_formula TrainRim.TLinear 3 (t + 1))
      /\ Num.sum_upto 3 (fun t => TF.val w [t]) = 1%R)
  /\ (exists layer w,
        TrainRim.kappa_residual_weights "sqrt" = inr layer
        /\ TrainRim.source_residual_weights "sqrt" = inr layer
        /\ layer Examples.batch = Some w
        /\ TF.shape w = [1; 1; 1; 2]
        /\ TrainRim.pixel_sum 1 1 2 (fun h x c => TF.val w [0; h; x; c]) = 1%R).
Proof.
  split.
  - apply (proj1 loss_weights_sum_to_one TrainRim.TLinear 3). lia.
  - apply (proj2 loss_weights_sum_to_one TrainRim.SqrtW Examples.batch 1 1 1 2 0).
    + reflexivity.
    + lia.
    + intros h w c _ _ _. cbn. lra.
    + cbn. rewrite sqrt_1. lra.
Defined.

(* ================================================================== *)
(** * Further properties of the recurrent block *)
(* ================================================================== *)

Section BlockStateProperties.
Import TF Keras Block.
Variables A W : Type.
Variable conv2d : Conv2D W -> tensor A -> tensor A.
Variable ConvGRU_call : GRUCell W -> tensor A -> tensor A -> tensor A * tensor A.
Variable ConvGRUPlus_call : GRUCell W -> tensor A -> tensor A -> tensor A * tensor A.

Lemma odd_extent (c : nat) : c mod 2 = 1 -> (c mod 2 =? 0) = false.
Proof. intros ->. reflexivity. Qed.

(** X1. A state whose channel count is odd, or whose rank is below four,
    makes both calls raise: tf.split cannot halve it. *)
Theorem block_call_rejects_unsplittable_state :
  forall (self : block W) (inputs state : tensor A),
    length (shape state) <= 3 \/ nth 3 (shape state) 0 mod 2 = 1 ->
    ConvGRUBlock_call conv2d ConvGRU_call self inputs state = None
    /\ ConvGRUPlusBlock_call conv2d ConvGRUPlus_call self inputs state = None.
Proof.
  intros self inputs state H.
  assert (Hsplit : split2 state 3 = None).
  { unfold split2. destruct H as [H | H].
    - apply Nat.ltb_ge in H. rewrite H. reflexivity.
    - rewrite (odd_extent _ H). destruct (3 <? length (shape state)); reflexivity. }
  unfold ConvGRUBlock_call, ConvGRUPlusBlock_call. rewrite Hsplit.
  split; reflexivity.
Qed.

(** Entries of a channel concatenation. *)
Lemma channel_concat_val (a b : tensor A) (n h w ca cb i j k l : nat) :
  shape a = [n; h; w; ca] ->
  val (channel_concat a b) [i; j; k; l]
  = if l <? ca then val a [i; j; k; l] else val b [i; j; k; l - ca].
Proof.
  intros Ha. unfold channel_concat. cbn [val]. rewrite Ha. reflexivity.
Qed.

(** Splitting a concatenation of two tensors of [F] channels gives the two
    tensors back, entry by entry. *)
Lemma split2_concat (a b : tensor A) (n h w F : nat) :
  shape a = [n; h; w; F] ->
  shape b = [n; h; w; F] ->
  exists p q,
    split2 (channel_concat a b) 3 = Some (p, q)
    /\ shape p = [n; h; w; F]
    /\ shape q = [n; h; w; F]
    /\ forall i j k l,
         l < F ->
         val p [i; j; k; l] = val a [i; j; k; l]
         /\ val q [i; j; k; l] = val b [i; j; k; l].
Proof.
  intros Ha Hb.
  destruct (concat2_channels A a b n h w F F Ha Hb) as [_ Hs].
  replace (F + F) with (2 * F) in Hs by lia.
  rewrite (split2_halves A (channel_concat a b) n h w F Hs).
  exists (first_half F (channel_concat a b)), (second_half F (channel_concat a b)).
  split; [ reflexivity | ].
  unfold first_half, second_half. rewrite Hs. cbn [shape val].
  split; [ reflexivity | ]. split; [ reflexivity | ].
  intros i j k l Hl.
  cbn [nth set_nth firstn skipn app].
  rewrite !(channel_concat_val a b n h w F F) by exact Ha.
  assert (E1 : (l <? F) = true) by (apply Nat.ltb_lt; exact Hl).
  assert (E2 : (l + F <? F) = false) by (apply Nat.ltb_ge; lia).
  rewrite E1, E2. replace (l + F - F) with l by lia.
  split; reflexivity.
Qed.

(** X2. When the cells return states shaped like their slabs, the state a
    call returns splits, at the next call, into the first cell's output
    and the output features just returned: the second slab of the new
    state is the block's own output. *)
Theorem new_state_splits_into_cell_outputs :
  forall (self : block W) (inputs state : tensor A) (n h w F : nat),
    shape state = [n; h; w; 2 * F] ->
    keeps_state_shape (ConvGRU_call (gru1 self)) [n; h; w; F] ->
    keeps_state_shape (ConvGRU_call (gru2 self)) [n; h; w; F] ->
    exists xt ht ht_11' ht_12',
      ConvGRUBlock_call conv2d ConvGRU_call self inputs state = Some (xt, ht)
      /\ split2 ht 3 = Some (ht_11', ht_12')
      /\ shape ht_12' = shape xt
      /\ forall i j k l,
           l < F ->
           val ht_11' [i; j; k; l]
           = val (fst (ConvGRU_call (gru1 self) inputs (first_half F state)))
               [i; j; k; l]
           /\ val ht_12' [i; j; k; l] = val xt [i; j; k; l].
Proof.
  intros self inputs state n h w F Hs K1 K2.
  pose proof (split2_halves A state n h w F Hs) as Hsplit.
  assert (H1 : shape (first_half F state) = [n; h; w; F])
    by (unfold first_half; rewrite Hs; reflexivity).
  assert (H2 : shape (second_half F state) = [n; h; w; F])
    by (unfold second_half; rewrite Hs; reflexivity).
  unfold ConvGRUBlock_call. rewrite Hsplit.
  set (g1 := fst (ConvGRU_call (gru1 self) inputs (first_half F state))).
  set (g2 := fst (ConvGRU_call (gru2 self) (conv2d (conv1 self) g1)
                    (second_half F state))).
  assert (S1 : shape g1 = [n; h; w; F]) by (apply K1; exact H1).
  assert (S2 : shape g2 = [n; h; w; F]) by (apply K2; exact H2).
  destruct (concat2_channels A g1 g2 n h w F F S1 S2) as [Hc _].
  rewrite Hc.
  destruct (split2_concat g1 g2 n h w F S1 S2) as (p & q & Hpq & Sp & Sq & Hv).
  exists g2, (channel_concat g1 g2), p, q.
  split; [ reflexivity | ]. split; [ exact Hpq | ].
  split; [ rewrite Sq, S2; reflexivity | ].
  exact Hv.
Qed.

(** X3. The wiring loses nothing of the state: when both cells hand back
    the slab they were given, the new state has the shape of the prior
    state and the same entries. *)
Theorem idle_cells_keep_the_state :
  forall (self : block W) (inputs state : tensor A) (n h w F : nat),
    shape state = [n; h; w; 2 * F] ->
    (forall x s, fst (ConvGRU_call (gru1 self) x s) = s) ->
    (forall x s, fst (ConvGRU_call (gru2 self) x s) = s) ->
    exists xt ht,
      ConvGRUBlock_call conv2d ConvGRU_call self inputs state = Some (xt, ht)
      /\ shape ht = shape state
      /\ forall i j k l,
           l < 2 * F -> val ht [i; j; k; l] = val state [i; j; k; l].
Proof.
  intros self inputs state n h w F Hs I1 I2.
  pose proof (split2_halves A state n h w F Hs) as Hsplit.
  assert (H1 : shape (first_half F state) = [n; h; w; F])
    by (unfold first_half; rewrite Hs; reflexivity).
  assert (H2 : shape (second_half F state) = [n; h; w; F])
    by (unfold second_half; rewrite Hs; reflexivity).
  unfold ConvGRUBlock_call. rewrite Hsplit, I1, I2.
  destruct (concat2_channels A _ _ n h w F F H1 H2) as [Hc Hsh].
  rewrite Hc.
  exists (second_half F state),
    (channel_concat (first_half F state) (second_half F state)).
  split; [ reflexivity | ].
  split; [ rewrite Hsh, Hs; f_equal; f_equal; f_equal; f_equal; lia | ].
  intros i j k l Hl.
  rewrite (channel_concat_val _ _ n h w F F) by exact H1.
  unfold first_half, second_half. rewrite Hs. cbn [val nth set_nth firstn skipn app].
  destruct (l <? F) eqn:E; [ reflexivity | ].
  apply Nat.ltb_ge in E. replace (l - F + F) with l by lia. reflexivity.
Qed.

End BlockStateProperties.

(* ================================================================== *)
(** * Further properties of the encoding stage *)
(* ================================================================== *)

Section EncoderCallProperties.
Import TF Keras Encoder.
Variables A W S : Type.
Variable conv2d : Conv2D W -> tensor A -> tensor A.
Variable batch_normalization : slot -> bool -> tensor A -> S -> tensor A * S.
Variable spatial_dropout : Q -> bool -> tensor A -> S -> tensor A * S.
Variable get_activation : string -> tensor A -> tensor A.
Variable fresh : slot -> W.

Local Abbreviation init := (ConvEncodingLayer_init fresh).
Local Abbreviation call := (ConvEncodingLayer_call conv2d batch_normalization
                    spatial_dropout get_activation).
Local Abbreviation call_skip := (ConvEncodingLayer_call_with_skip_connection conv2d
                         batch_normalization spatial_dropout get_activation).
Local Abbreviation loop := (call_loop conv2d batch_normalization spatial_dropout
                    get_activation).
Local Abbreviation down_call := (DownsamplingLayer_call conv2d batch_normalization
                         get_activation).
Local Abbreviation stack := (spec_stack conv2d batch_normalization spatial_dropout
                     get_activation fresh).
Local Abbreviation downsample := (spec_downsample conv2d batch_normalization
                          get_activation fresh).

(** X4. The constructor builds as many normalisation layers as
    convolutions, conv_layers of each, so that [self.batch_norms[i]] is
    always in range: neither call raises on a constructed layer. *)
Theorem constructed_layer_never_raises :
  forall (args : config),
    length (conv_layers (init args)) = arg_conv_layers args
    /\ length (batch_norms (init args)) = arg_conv_layers args
    /\ forall (x : tensor A) (training : bool) (s : S),
         (exists y s', call (init args) x training s = Some (y, s'))
         /\ (exists y s', call_skip (init args) x training s = Some (y, s')).
Proof.
  intros args.
  split; [ cbn [conv_layers ConvEncodingLayer_init];
           rewrite length_map, length_seq; reflexivity | ].
  split; [ cbn [batch_norms ConvEncodingLayer_init];
           rewrite length_map, length_seq; reflexivity | ].
  intros x training s.
  destruct (stack_returns A W S conv2d batch_normalization spatial_dropout
              get_activation fresh args training (arg_conv_layers args) 0 x s)
    as (pre & s_mid & Hpre).
  destruct (downsample_returns A W S conv2d batch_normalization get_activation
              fresh args training pre s_mid) as (down & s' & Hd).
  rewrite <- (downsampling_call_spec A W S conv2d batch_normalization
                get_activation fresh) in Hd.
  rewrite <- (init_loop_stack A W S conv2d batch_normalization spatial_dropout
                get_activation fresh) in Hpre.
  split.
  - exists down, s'. unfold ConvEncodingLayer_call, bind.
    rewrite Hpre, Hd. reflexivity.
  - exists (pre, down), s'.
    unfold ConvEncodingLayer_call_with_skip_connection, bind.
    rewrite (skip_loop_call_loop A W S conv2d batch_normalization
               spatial_dropout get_activation), Hpre, Hd.
    reflexivity.
Qed.

Lemma stack_without_state (args : config) :
  arg_batch_norm args = false ->
  arg_dropout_rate args = None ->
  forall (m i : nat) (x : tensor A) (t t' : bool) (s s' : S),
    exists y,
      stack args t i m x s = Some (y, s)
      /\ stack args t' i m x s' = Some (y, s').
Proof.
  intros Hbn Hdr. induction m as [ | m IH]; intros i x t t' s s'.
  - exists x. split; reflexivity.
  - cbn [spec_stack].
    unfold spec_layer, spec_normalize, spec_dropout, bind, ret.
    rewrite Hbn, Hdr. cbv beta iota. apply IH.
Qed.

(** X5. With batch_norm off and dropout_rate unset, the forward pass is a
    function of its input alone: it leaves the store as it found it, and
    returns the same features whatever the training flag and the store. *)
Theorem plain_layer_ignores_training_and_store :
  forall (args : config),
    arg_batch_norm args = false ->
    arg_dropout_rate args = None ->
    forall (x : tensor A) (t t' : bool) (s s' : S),
      exists y,
        call (init args) x t s = Some (y, s)
        /\ call (init args) x t' s' = Some (y, s').
Proof.
  intros args Hbn Hdr x t t' s s'.
  destruct (stack_without_state args Hbn Hdr (arg_conv_layers args) 0 x t t' s s')
    as (pre & H1 & H2).
  rewrite <- (init_loop_stack A W S conv2d batch_normalization spatial_dropout
                get_activation fresh) in H1, H2.
  exists (get_activation (arg_activation args)
            (conv2d (spec_down_conv fresh args) pre)).
  unfold ConvEncodingLayer_call, bind. rewrite H1, H2.
  rewrite !(downsampling_call_spec A W S conv2d batch_normalization
              get_activation fresh).
  unfold spec_downsample, spec_normalize, bind, ret. rewrite Hbn.
  split; reflexivity.
Qed.

End EncoderCallProperties.

(* ================================================================== *)
(** * Further properties of the loss *)
(* ================================================================== *)

Section LossValueProperties.
Import TF Num TrainRim.
Local Open Scope R_scope.

Lemma sum_upto_zero (n : nat) (f : nat -> R) :
  (forall i, (i < n)%nat -> f i = 0) -> sum_upto n f = 0.
Proof.
  induction n as [ | n IH]; intros E; cbn [sum_upto].
  - reflexivity.
  - rewrite IH by (intros i Hi; apply E; lia).
    rewrite E by lia. lra.
Qed.

Lemma sum_upto_nonneg (n : nat) (f : nat -> R) :
  (forall i, (i < n)%nat -> 0 <= f i) -> 0 <= sum_upto n f.
Proof.
  induction n as [ | n IH]; intros E; cbn [sum_upto].
  - lra.
  - assert (0 <= sum_upto n f) by (apply IH; intros i Hi; apply E; lia).
    assert (0 <= f n) by (apply E; lia). lra.
Qed.

Lemma pixel_sum_zero (H W C : nat) (f : nat -> nat -> nat -> R) :
  (forall h w c, (h < H)%nat -> (w < W)%nat -> (c < C)%nat -> f h w c = 0) ->
  pixel_sum H W C f = 0.
Proof.
  intros E. unfold pixel_sum.
  apply sum_upto_zero; intros h Hh.
  apply sum_upto_zero; intros w Hw.
  apply sum_upto_zero; intros c Hc.
  apply E; assumption.
Qed.

Lemma pixel_sum_nonneg (H W C : nat) (f : nat -> nat -> nat -> R) :
  (forall h w c, (h < H)%nat -> (w < W)%nat -> (c < C)%nat -> 0 <= f h w c) ->
  0 <= pixel_sum H W C f.
Proof.
  intros E. unfold pixel_sum.
  apply sum_upto_nonneg; intros h Hh.
  apply sum_upto_nonneg; intros w Hw.
  apply sum_upto_nonneg; intros c Hc.
  apply E; assumption.
Qed.

Lemma field_loss_zero (T H W C : nat) (sw : nat -> R)
    (pw est truth : tensor R) (b : nat) :
  (forall t h w c,
      (t < T)%nat -> (h < H)%nat -> (w < W)%nat -> (c < C)%nat ->
      val est [t; b; h; w; c] = val truth [b; h; w; c]) ->
  field_loss T H W C sw pw est truth b = 0.
Proof.
  intros E. unfold field_loss.
  apply sum_upto_zero; intros t Ht.
  rewrite pixel_sum_zero; [ lra | ].
  intros h w c Hh Hw Hc. rewrite E by assumption.
  unfold Rminus. rewrite Rplus_opp_r. unfold Rsqr. lra.
Qed.

Lemma field_loss_nonneg (T H W C : nat) (sw : nat -> R)
    (pw est truth : tensor R) (b : nat) :
  (forall t, (t < T)%nat -> 0 <= sw t) ->
  (forall h w c,
      (h < H)%nat -> (w < W)%nat -> (c < C)%nat -> 0 <= val pw [b; h; w; c]) ->
  0 <= field_loss T H W C sw pw est truth b.
Proof.
  intros Hsw Hpw. unfold field_loss.
  apply sum_upto_nonneg; intros t Ht.
  apply Rmult_le_pos; [ apply Hsw; exact Ht | ].
  apply pixel_sum_nonneg; intros h w c Hh Hw Hc.
  apply Rmult_le_pos; [ apply Hpw; assumption | apply Rle_0_sqr ].
Qed.


(** Per-step weights are positive. *)
Lemma time_weights_positive (s : time_scheme) (T : nat) (w0 : tensor R) :
  (1 <= T)%nat ->
  time_weights (time_scheme_name s) T = inr w0 ->
  forall t, 0 < val w0 [t].
Proof.
  intros HT E t.
  assert (PT : 0 < INR T) by (apply lt_0_INR; lia).
  assert (PT1 : 0 < INR (T + 1)) by (apply lt_0_INR; lia).
  assert (PT2 : 0 < INR (2 * T + 1)) by (apply lt_0_INR; lia).
  assert (Pt : 0 <= INR t) by apply pos_INR.
  destruct s;
    cbn [time_scheme_name time_weights String.eqb Ascii.eqb Bool.eqb] in E;
    injection E as <-; cbn [tmap val ones range nth].
  - apply Rdiv_lt_0_compat; lra.
  - repeat apply Rdiv_lt_0_compat; try assumption. lra.
  - repeat apply Rdiv_lt_0_compat; try assumption.
    apply Rmult_lt_0_compat; [ lra | nra ].
Qed.

(** Per-pixel weights are not negative on maps that are not negative. *)
Lemma pixel_weights_nonneg (s : pixel_scheme) (layer : tensor R -> option (tensor R))
    (k : tensor R) (B H W C : nat) :
  kappa_residual_weights (scheme_name s) = inr layer
  \/ source_residual_weights (scheme_name s) = inr layer ->
  shape k = [B; H; W; C] ->
  (forall b, (b < B)%nat ->
     denominator s k b <> 0
     /\ forall h w c, (h < H)%nat -> (w < W)%nat -> (c < C)%nat ->
                      0 <= val k [b; h; w; c]) ->
  exists w,
    layer k = Some w
    /\ shape w = [B; H; W; C]
    /\ forall b h x c,
         (b < B)%nat -> (h < H)%nat -> (x < W)%nat -> (c < C)%nat ->
         0 <= val w [b; h; x; c].
Proof.
  intros Hl Hs Hk.
  assert (Hnorm : forall g : R -> R,
    (forall x, 0 <= x -> 0 <= g x) ->
    (forall b, (b < B)%nat -> sample_sum g k b <> 0) ->
    exists w,
      normalized g k = Some w
      /\ shape w = [B; H; W; C]
      /\ forall b h x c,
           (b < B)%nat -> (h < H)%nat -> (x < W)%nat -> (c < C)%nat ->
           0 <= val w [b; h; x; c]).
  { intros g Hg Hd.
    destruct (normalized_eval g k B H W C Hs) as (w & Hw & Sw & Vw).
    exists w. split; [ exact Hw | ]. split; [ exact Sw | ].
    intros b h x c Hb Hh Hx Hc. rewrite Vw by assumption.
    assert (0 <= sample_sum g k b).
    { rewrite (sample_sum_pixel_sum g k B H W C b Hs).
      apply pixel_sum_nonneg. intros h' w' c' ? ? ?.
      apply Hg. apply (proj2 (Hk b Hb)); assumption. }
    assert (sample_sum g k b <> 0) by (apply Hd; exact Hb).
    apply Rmult_le_pos.
    - apply Hg. apply (proj2 (Hk b Hb)); assumption.
    - apply Rlt_le, Rinv_0_lt_compat. lra. }
  destruct s.
  - assert (E : layer = uniform_weights).
    { destruct Hl as [Hl | Hl];
        cbn [scheme_name kappa_residual_weights source_residual_weights
             String.eqb Ascii.eqb Bool.eqb] in Hl;
        injection Hl as <-; reflexivity. }
    subst layer.
    destruct (uniform_eval k B H W C Hs) as (w & Hw & Sw & Vw).
    exists w. split; [ exact Hw | ]. split; [ exact Sw | ].
    intros b h x c Hb Hh Hx Hc. rewrite Vw.
    assert (0 <= INR (reduce_prod_tail_shape k)) by apply pos_INR.
    assert (INR (reduce_prod_tail_shape k) <> 0)
      by (apply (proj1 (Hk b Hb))).
    apply Rmult_le_pos; [ lra | ].
    apply Rlt_le, Rinv_0_lt_compat. lra.
  - assert (E : layer = normalized (fun x => x)).
    { destruct Hl as [Hl | Hl];
        cbn [scheme_name kappa_residual_weights source_residual_weights
             String.eqb Ascii.eqb Bool.eqb] in Hl;
        injection Hl as <-; reflexivity. }
    subst layer. apply Hnorm.
    + intros x Hx; exact Hx.
    + intros b Hb. apply (proj1 (Hk b Hb)).
  - assert (E : layer = normalized sqrt).
    { destruct Hl as [Hl | Hl];
        cbn [scheme_name kappa_residual_weights source_residual_weights
             String.eqb Ascii.eqb Bool.eqb] in Hl;
        injection Hl as <-; reflexivity. }
    subst layer. apply Hnorm.
    + intros x _. apply sqrt_pos.
    + intros b Hb. apply (proj1 (Hk b Hb)).
  - assert (E : layer = normalized Rsqr).
    { destruct Hl as [Hl | Hl];
        cbn [scheme_name kappa_residual_weights source_residual_weights
             String.eqb Ascii.eqb Bool.eqb] in Hl;
        injection Hl as <-; reflexivity. }
    subst layer. apply Hnorm.
    + intros x _. apply Rle_0_sqr.
    + intros b Hb. apply (proj1 (Hk b Hb)).
Qed.

(** X6. For recognised schemes, a batch size that is not zero and
    ground-truth maps that are not negative and whose weight denominators
    are not zero, the per-pixel weights are defined and not negative, and
    a trace that sits on the inverse link of the truth at every step
    costs nothing.  The arithmetic is that of the real numbers. *)
Theorem exact_trace_costs_nothing :
  forall (tname : string) (ks ss : pixel_scheme)
         (T B Hs Ws Cs Hk Wk Ck : nat)
         (weights : loss_weights) (sil kil : tensor R -> tensor R)
         (batch_size : Z)
         (source kappa source_series kappa_series : tensor R),
    setup_weights tname (scheme_name ks) (scheme_name ss) T = inr weights ->
    batch_size <> 0%Z ->
    shape source = [B; Hs; Ws; Cs] ->
    shape kappa = [B; Hk; Wk; Ck] ->
    shape source_series = [T; B; Hs; Ws; Cs] ->
    shape kappa_series = [T; B; Hk; Wk; Ck] ->
    shape (sil source) = [B; Hs; Ws; Cs] ->
    shape (kil kappa) = [B; Hk; Wk; Ck] ->
    (forall b, (b < B)%nat ->
       denominator ss source b <> 0
       /\ forall h w c, (h < Hs)%nat -> (w < Ws)%nat -> (c < Cs)%nat ->
                        0 <= val source [b; h; w; c]) ->
    (forall b, (b < B)%nat ->
       denominator ks kappa b <> 0
       /\ forall h w c, (h < Hk)%nat -> (w < Wk)%nat -> (c < Ck)%nat ->
                        0 <= val kappa [b; h; w; c]) ->
    (forall t b h w c,
        (t < T)%nat -> (b < B)%nat -> (h < Hs)%nat -> (w < Ws)%nat -> (c < Cs)%nat ->
        val source_series [t; b; h; w; c] = val (sil source) [b; h; w; c]) ->
    (forall t b h w c,
        (t < T)%nat -> (b < B)%nat -> (h < Hk)%nat -> (w < Wk)%nat -> (c < Ck)%nat ->
        val kappa_series [t; b; h; w; c] = val (kil kappa) [b; h; w; c]) ->
    exists w_source w_kappa,
      ws weights source = Some w_source
      /\ wk weights kappa = Some w_kappa
      /\ (forall b h w c,
            (b < B)%nat -> (h < Hs)%nat -> (w < Ws)%nat -> (c < Cs)%nat ->
            0 <= val w_source [b; h; w; c])
      /\ (forall b h w c,
            (b < B)%nat -> (h < Hk)%nat -> (w < Wk)%nat -> (c < Ck)%nat ->
            0 <= val w_kappa [b; h; w; c])
      /\ train_step sil kil weights batch_size
           source kappa source_series kappa_series = Some 0.
Proof.
  intros tname ks ss T B Hs Ws Cs Hk Wk Ck weights sil kil batch_size
    source kappa source_series kappa_series Hsetup Hbs Ss Sk Sss Sks Ssl Skl
    Ds Dk Es Ek.
  destruct (setup_weights_shapes _ _ _ T weights Hsetup) as (Hwt & _ & _).
  unfold setup_weights in Hsetup.
  destruct (time_weights tname T) as [ | w0] eqn:Et; [ discriminate | ].
  destruct (kappa_residual_weights (scheme_name ks)) as [ | lk] eqn:Elk;
    [ discriminate | ].
  destruct (source_residual_weights (scheme_name ss)) as [ | ls] eqn:Els;
    [ discriminate | ].
  injection Hsetup as <-. cbn [wt wk ws] in *.
  destruct (pixel_weights_nonneg ss ls source B Hs Ws Cs (or_intror Els) Ss Ds)
    as (w_source & Hws & Sws & Ps).
  destruct (pixel_weights_nonneg ks lk kappa B Hk Wk Ck (or_introl Elk) Sk Dk)
    as (w_kappa & Hwk & Swk & Pk).
  exists w_source, w_kappa.
  split; [ exact Hws | ]. split; [ exact Hwk | ].
  split; [ exact Ps | ]. split; [ exact Pk | ].
  rewrite (train_step_general sil kil (mkWeights (newaxis_last w0) lk ls)
             batch_size source kappa source_series kappa_series
             w_source w_kappa T B Hs Ws Cs Hk Wk Ck)
    by assumption.
  f_equal. unfold spec_loss.
  rewrite sum_upto_zero; [ unfold Rdiv; ring | ].
  intros b Hb.
  rewrite !field_loss_zero; [ lra | | ].
  - intros t h w c Ht Hh Hw Hc. apply Ek; assumption.
  - intros t h w c Ht Hh Hw Hc. apply Es; assumption.
Qed.

(** X7. For recognised schemes, a positive batch size and ground-truth
    maps that are not negative and whose weight denominators are not
    zero, the cost of train_step is not negative. *)
Theorem cost_is_not_negative :
  forall (ts : time_scheme) (ks ss : pixel_scheme)
         (T B Hs Ws Cs Hk Wk Ck : nat)
         (weights : loss_weights) (sil kil : tensor R -> tensor R)
         (batch_size : Z)
         (source kappa source_series kappa_series : tensor R),
    (1 <= T)%nat ->
    (0 < batch_size)%Z ->
    setup_weights (time_scheme_name ts) (scheme_name ks) (scheme_name ss) T
    = inr weights ->
    shape source = [B; Hs; Ws; Cs] ->
    shape kappa = [B; Hk; Wk; Ck] ->
    shape source_series = [T; B; Hs; Ws; Cs] ->
    shape kappa_series = [T; B; Hk; Wk; Ck] ->
    shape (sil source) = [B; Hs; Ws; Cs] ->
    shape (kil kappa) = [B; Hk; Wk; Ck] ->
    (forall b, (b < B)%nat ->
       denominator ss source b <> 0
       /\ forall h w c, (h < Hs)%nat -> (w < Ws)%nat -> (c < Cs)%nat ->
                        0 <= val source [b; h; w; c]) ->
    (forall b, (b < B)%nat ->
       denominator ks kappa b <> 0
       /\ forall h w c, (h < Hk)%nat -> (w < Wk)%nat -> (c < Ck)%nat ->
                        0 <= val kappa [b; h; w; c]) ->
    exists cost,
      train_step sil kil weights batch_size
        source kappa source_series kappa_series = Some cost
      /\ 0 <= cost.
Proof.
  intros ts ks ss T B Hs Ws Cs Hk Wk Ck weights sil kil batch_size
    source kappa source_series kappa_series HT Hbs Hsetup
    Ss Sk Sss Sks Ssl Skl Ds Dk.
  destruct (setup_weights_shapes _ _ _ T weights Hsetup) as (Hwt & _ & _).
  unfold setup_weights in Hsetup.
  destruct (time_weights (time_scheme_name ts) T) as [ | w0] eqn:Et;
    [ discriminate | ].
  destruct (kappa_residual_weights (scheme_name ks)) as [ | lk] eqn:Ek;
    [ discriminate | ].
  destruct (source_residual_weights (scheme_name ss)) as [ | ls] eqn:Es;
    [ discriminate | ].
  injection Hsetup as <-. cbn [wt wk ws] in *.
  destruct (pixel_weights_nonneg ss ls source B Hs Ws Cs (or_intror Es) Ss Ds)
    as (w_source & Hws & Sws & Ps).
  destruct (pixel_weights_nonneg ks lk kappa B Hk Wk Ck (or_introl Ek) Sk Dk)
    as (w_kappa & Hwk & Swk & Pk).
  eexists. split.
  - apply (train_step_general sil kil (mkWeights (newaxis_last w0) lk ls)
             batch_size source kappa source_series kappa_series
             w_source w_kappa T B Hs Ws Cs Hk Wk Ck); assumption.
  - unfold spec_loss. cbn [wt].
    apply Rmult_le_pos.
    + apply sum_upto_nonneg; intros b Hb.
      apply Rplus_le_le_0_compat; apply field_loss_nonneg.
      * intros t _. cbn [newaxis_last val removelast].
        apply Rlt_le. apply (time_weights_positive ts T w0 HT Et).
      * intros h w c ? ? ?. apply Ps; assumption.
      * intros t _. cbn [newaxis_last val removelast].
        apply Rlt_le. apply (time_weights_positive ts T w0 HT Et).
      * intros h w c ? ? ?. apply Pk; assumption.
    + apply Rlt_le, Rinv_0_lt_compat. apply IZR_lt. exact Hbs.
Qed.

(** X8. The per-step weights grow with the step under 'linear' and
    'quadratic' and are all equal under 'uniform'. *)
Theorem later_steps_weigh_more :
  forall (s : time_scheme) (T t : nat),
    (t + 1 < T)%nat ->
    exists w,
      time_weights (time_scheme_name s) T = inr w
      /\ match s with
         | TUniform => val w [t] = val w [(t + 1)%nat]
         | TLinear | TQuadratic => val w [t] < val w [(t + 1)%nat]
         end.
Proof.
  intros s T t Ht.
  assert (PT : 0 < INR T) by (apply lt_0_INR; lia).
  assert (PT1 : 0 < INR (T + 1)) by (apply lt_0_INR; lia).
  assert (PT2 : 0 < INR (2 * T + 1)) by (apply lt_0_INR; lia).
  assert (Pt : 0 <= INR t) by apply pos_INR.
  assert (Pi1 : 0 < / INR T) by (apply Rinv_0_lt_compat; exact PT).
  assert (Pi2 : 0 < / INR (T + 1)) by (apply Rinv_0_lt_compat; exact PT1).
  assert (Pi3 : 0 < / INR (2 * T + 1)) by (apply Rinv_0_lt_compat; exact PT2).
  destruct s;
    cbn [time_scheme_name time_weights String.eqb Ascii.eqb Bool.eqb];
    eexists; (split; [ reflexivity | ]);
    cbn [tmap val ones range nth].
  - reflexivity.
  - rewrite (plus_INR t 1). cbn [INR]. unfold Rdiv.
    repeat apply Rmult_lt_compat_r; try assumption. lra.
  - rewrite (plus_INR t 1). cbn [INR]. unfold Rdiv.
    repeat apply Rmult_lt_compat_r; try assumption.
    apply Rmult_lt_compat_l; [ lra | ].
    cbn [pow]. nra.
Qed.

End LossValueProperties.

(* ================================================================== *)
(** * Further properties of the epoch loop *)
(* ================================================================== *)

Section EpochLoopProperties.
Import TrainRim.

(** What holds before epoch [i] and is kept by every epoch holds when the
    loop is left. *)
Lemma run_epochs_keeps (a : args) (obs : nat -> epoch_obs)
    (P : nat -> loop_state -> Prop) :
  (forall i s, P i s -> P (S i) s) ->
  (forall i s, P i s ->
     match epoch_body a i (obs i) s with
     | Next s' | Break s' | Raise _ s' => P (S i) s'
     end) ->
  forall m i s, P i s -> P (i + m) (snd (run_epochs a obs (seq i m) s)).
Proof.
  intros Hmono Hstep.
  assert (Hlift : forall m i s, P i s -> P (i + m) s).
  { induction m as [ | m IH]; intros i s H.
    - rewrite Nat.add_0_r. exact H.
    - rewrite Nat.add_succ_r. apply Hmono. apply IH. exact H. }
  induction m as [ | m IH]; intros i s H.
  - cbn. rewrite Nat.add_0_r. exact H.
  - cbn [seq run_epochs]. specialize (Hstep i s H).
    replace (i + S m) with (S i + m) by lia.
    destruct (epoch_body a i (obs i) s) as [s' | s' | e s'].
    + apply IH. exact Hstep.
    + cbn [snd]. apply Hlift. exact Hstep.
    + cbn [snd]. apply Hlift. exact Hstep.
Qed.

Ltac epoch_cases :=
  unfold epoch_body, after_epoch;
  repeat match goal with
         | |- context [if ?b then _ else _] => destruct b eqn:?
         end;
  cbn [best_loss patience out_of_time lastest_checkpoint score_sheet saved].

(** X9. The rows of score_sheet.txt are numbered 1, 2, 3, ... without a
    gap, one row per saved checkpoint, and the counter the loop keeps is
    one more than the number of checkpoints saved. *)
Theorem score_sheet_numbers_checkpoints :
  forall (a : args) (obs : nat -> epoch_obs),
    let final := snd (training_loop a obs) in
    map fst (score_sheet final)
    = map (fun i => Z.of_nat (S i)) (seq 0 (length (saved final)))
    /\ lastest_checkpoint final = Z.of_nat (S (length (saved final))).
Proof.
  intros a obs. cbv zeta. unfold training_loop.
  apply (run_epochs_keeps a obs
           (fun _ s =>
              map fst (score_sheet s)
              = map (fun i => Z.of_nat (S i)) (seq 0 (length (saved s)))
              /\ lastest_checkpoint s = Z.of_nat (S (length (saved s))))
           (fun _ _ H => H)).
  - intros i s [H1 H2]. epoch_cases; try (split; assumption).
    all: rewrite !map_app, !length_app, H1; cbn [length map fst].
    all: rewrite Nat.add_1_r, seq_S, map_app; cbn [map Nat.add].
    all: split; [ rewrite H2; reflexivity | lia ].
  - split; reflexivity.
Qed.

(** X10. Checkpoints are saved in epochs of the run, at most one per
    epoch and in the order of the epochs. *)
Theorem checkpoints_follow_the_epochs :
  forall (a : args) (obs : nat -> epoch_obs),
    let final := snd (training_loop a obs) in
    StronglySorted lt (saved final)
    /\ forall e, In e (saved final) -> e < epochs a.
Proof.
  intros a obs. cbv zeta. unfold training_loop.
  apply (run_epochs_keeps a obs
           (fun i s =>
              StronglySorted lt (saved s)
              /\ forall e, In e (saved s) -> e < i)).
  - intros i s [H1 H2]. split; [ exact H1 | ].
    intros e He. specialize (H2 e He). lia.
  - intros i s [H1 H2].
    assert (Hkeep : StronglySorted lt (saved s)
                    /\ forall e, In e (saved s) -> e < S i).
    { split; [ exact H1 | ]. intros e He. specialize (H2 e He). lia. }
    assert (Hadd : StronglySorted lt (saved s ++ [i])
                   /\ forall e, In e (saved s ++ [i]) -> e < S i).
    { split.
      - clear Hkeep. induction H1 as [ | x l Hl IH Hx].
        + cbn. constructor; constructor.
        + cbn. constructor.
          * apply IH. intros e He. apply H2. right. exact He.
          * apply Forall_app. split; [ exact Hx | ].
            constructor; [ | constructor ]. apply H2. left. reflexivity.
      - intros e He. apply in_app_iff in He. destruct He as [He | [<- | []]].
        + specialize (H2 e He). lia.
        + lia. }
    epoch_cases; assumption.
  - split; [ constructor | intros e [] ].
Qed.

(** X11. The best loss the loop ends with is never NaN: it is the
    initial infinity, or the tracked cost of an epoch of the run. *)
Theorem best_loss_is_a_tracked_cost :
  forall (a : args) (obs : nat -> epoch_obs),
    let final := snd (training_loop a obs) in
    isnan (best_loss final) = false
    /\ (best_loss final = PInf
        \/ exists e, e < epochs a /\ best_loss final = tracked_cost a (obs e)).
Proof.
  intros a obs. cbv zeta. unfold training_loop.
  apply (run_epochs_keeps a obs
           (fun i s =>
              isnan (best_loss s) = false
              /\ (best_loss s = PInf
                  \/ exists e, e < i /\ best_loss s = tracked_cost a (obs e)))).
  - intros i s [H1 [H2 | (e & He & H2)]]; (split; [ exact H1 | ]).
    + left. exact H2.
    + right. exists e. split; [ lia | exact H2 ].
  - intros i s [H1 H2].
    assert (Hkeep : isnan (best_loss s) = false
                    /\ (best_loss s = PInf
                        \/ exists e, e < S i
                                     /\ best_loss s = tracked_cost a (obs e))).
    { split; [ exact H1 | ]. destruct H2 as [H2 | (e & He & H2)].
      - left. exact H2.
      - right. exists e. split; [ lia | exact H2 ]. }
    unfold epoch_body, after_epoch.
    fold (tracked_cost a (obs i)).
    destruct (no_time_for_epoch (obs i)); [ exact Hkeep | ].
    destruct (isnan (tracked_cost a (obs i))) eqn:Hnan; [ exact Hkeep | ].
    assert (Hnew : isnan (tracked_cost a (obs i)) = false
                   /\ (tracked_cost a (obs i) = PInf
                       \/ exists e, e < S i
                            /\ tracked_cost a (obs i) = tracked_cost a (obs e))).
    { split; [ exact Hnan | ]. right. exists i. split; [ lia | reflexivity ]. }
    repeat match goal with
           | |- context [if ?b then _ else _] => destruct b eqn:?
           end;
      cbn [best_loss patience out_of_time lastest_checkpoint score_sheet saved];
      assumption.
  - split; [ reflexivity | left; reflexivity ].
Qed.


(** X13. With a model directory and [--checkpoints 0], the first epoch
    that reaches the checkpoint branch raises ZeroDivisionError, and
    nothing has been saved. *)
Theorem zero_checkpoint_period_raises :
  forall (a : args) (obs : nat -> epoch_obs),
    save_checkpoint a = true ->
    checkpoints a = 0%Z ->
    1 <= epochs a ->
    no_time_for_epoch (obs 0) = false ->
    isnan (tracked_cost a (obs 0)) = false ->
    fst (training_loop a obs) = Some ZeroDivisionError
    /\ saved (snd (training_loop a obs)) = [].
Proof.
  intros a obs Hsave Hc He Hhead Hnan.
  unfold training_loop. destruct (epochs a) as [ | n]; [ lia | ].
  cbn [seq run_epochs]. unfold epoch_body, after_epoch.
  fold (tracked_cost a (obs 0)).
  rewrite Hhead, Hnan, Hsave, Hc. cbn [Z.eqb].
  destruct (flt _ _); destruct (past_max_time (obs 0)); split; reflexivity.
Qed.

(** An epoch that brings no improvement, in a run that is not out of
    time: the best loss stays, the patience goes down by one, and the
    loop goes on unless the patience has run out, in which case a
    checkpoint is saved first. *)
Lemma epoch_without_improvement (a : args) (epoch : nat) (o : epoch_obs)
    (s : loop_state) :
  no_time_for_epoch o = false ->
  past_max_time o = false ->
  lr_below_limit o = false ->
  isnan (tracked_cost a o) = false ->
  flt (tracked_cost a o) (fmul (fsub (Fin 1) (tolerance a)) (best_loss s)) = false ->
  out_of_time s = false ->
  (save_checkpoint a = true -> checkpoints a <> 0%Z) ->
  exists s',
    best_loss s' = best_loss s
    /\ patience s' = decr (patience s)
    /\ out_of_time s' = false
    /\ epoch_body a epoch o s
       = (if is_zero (decr (patience s)) then Break s' else Next s')
    /\ (is_zero (decr (patience s)) = true -> save_checkpoint a = true ->
        In epoch (saved s')).
Proof.
  intros Hhead Hmax Hlr Hnan Hflt Hout Hperiod.
  unfold epoch_body, after_epoch. fold (tracked_cost a o).
  rewrite Hhead, Hnan, Hflt, Hmax.
  cbn [best_loss patience out_of_time lastest_checkpoint score_sheet saved].
  destruct (save_checkpoint a) eqn:Hsave.
  - destruct (checkpoints a =? 0)%Z eqn:Hc;
      [ apply Z.eqb_eq in Hc; exfalso; apply (Hperiod eq_refl); exact Hc | ].
    rewrite Hout.
    destruct (is_zero (decr (patience s))) eqn:Hz.
    + rewrite orb_true_r. cbn [orb].
      cbn [best_loss patience out_of_time lastest_checkpoint score_sheet saved].
      rewrite Hz.
      eexists.
      split; [ | split; [ | split; [ | split; [ reflexivity | ] ] ] ];
        try reflexivity.
      intros _ _. cbn [saved]. apply in_app_iff. right. left. reflexivity.
    + destruct ((Z.of_nat epoch mod checkpoints a =? 0)%Z || false
                || (Z.of_nat epoch =? Z.of_nat (epochs a) - 1)%Z || false)%bool;
        cbn [best_loss patience out_of_time lastest_checkpoint score_sheet saved];
        rewrite Hz, ?Hout, Hlr;
        eexists;
        (split; [ | split; [ | split; [ | split; [ reflexivity | ] ] ] ]);
        try reflexivity; discriminate.
  - rewrite Hout.
    cbn [best_loss patience out_of_time lastest_checkpoint score_sheet saved].
    rewrite Hlr.
    destruct (is_zero (decr (patience s))) eqn:Hz;
      eexists;
      (split; [ | split; [ | split; [ | split; [ reflexivity | ] ] ] ]);
      try reflexivity; discriminate.
Qed.

Lemma run_epochs_step (a : args) (obs : nat -> epoch_obs) (i n : nat)
    (s : loop_state) :
  run_epochs a obs (seq i (S n)) s
  = match epoch_body a i (obs i) s with
    | Next s' => run_epochs a obs (seq (S i) n) s'
    | Break s' => (None, s')
    | Raise e s' => (Some e, s')
    end.
Proof. reflexivity. Qed.

(** X14. Early stopping: from a patience of [k + 1], [k + 1] epochs in a
    row that bring no improvement (and meet no clock or learning-rate
    limit) end the run at the last of them; no later epoch runs, the best
    loss is the one the run came with, and with checkpointing on that
    last epoch is saved. *)
Theorem patience_runs_out :
  forall (a : args) (obs : nat -> epoch_obs) (k i m : nat) (s : loop_state),
    patience s = Finite (Z.of_nat (S k)) ->
    out_of_time s = false ->
    (save_checkpoint a = true -> checkpoints a <> 0%Z) ->
    (forall j, i <= j <= i + k ->
       no_time_for_epoch (obs j) = false
       /\ past_max_time (obs j) = false
       /\ lr_below_limit (obs j) = false
       /\ isnan (tracked_cost a (obs j)) = false
       /\ flt (tracked_cost a (obs j))
            (fmul (fsub (Fin 1) (tolerance a)) (best_loss s)) = false) ->
    exists s',
      run_epochs a obs (seq i (S k + m)) s = (None, s')
      /\ patience s' = Finite 0
      /\ best_loss s' = best_loss s
      /\ (save_checkpoint a = true -> In (i + k) (saved s'))
      /\ forall e, In e (saved s') -> In e (saved s) \/ e <= i + k.
Proof.
  intros a obs k. induction k as [ | k IH]; intros i m s Hp Hout Hperiod Hq.
  - destruct (Hq i ltac:(lia)) as (Q1 & Q2 & Q3 & Q4 & Q5).
    destruct (epoch_without_improvement a i (obs i) s Q1 Q2 Q3 Q4 Q5 Hout Hperiod)
      as (s' & B & P & O & E & Sv).
    rewrite Hp in P, E, Sv. cbn [decr is_zero] in P, E, Sv.
    change (Z.of_nat 1 - 1 =? 0)%Z with true in E, Sv.
    change (Z.of_nat 1 - 1)%Z with 0%Z in P.
    exists s'. change (1 + m) with (S m). rewrite run_epochs_step, E.
    rewrite Nat.add_0_r.
    split; [ reflexivity | ]. split; [ exact P | ]. split; [ exact B | ].
    split; [ intros Hs; apply Sv; [ reflexivity | exact Hs ] | ].
    intros e He.
    pose proof (epoch_body_saved a i (obs i) s) as Hb.
    rewrite E in Hb. destruct (Hb e He) as [H | ->]; [ left; exact H | right; lia ].
  - destruct (Hq i ltac:(lia)) as (Q1 & Q2 & Q3 & Q4 & Q5).
    destruct (epoch_without_improvement a i (obs i) s Q1 Q2 Q3 Q4 Q5 Hout Hperiod)
      as (s1 & B & P & O & E & _).
    rewrite Hp in P, E. cbn [decr is_zero] in P, E.
    replace (Z.of_nat (S (S k)) - 1)%Z with (Z.of_nat (S k)) in P, E by lia.
    assert (Hnz : (Z.of_nat (S k) =? 0)%Z = false) by (apply Z.eqb_neq; lia).
    rewrite Hnz in E.
    destruct (IH (S i) m s1 P O Hperiod) as (s' & R & P' & B' & Sv' & In').
    { intros j Hj. rewrite B. apply Hq. lia. }
    exists s'. change (S (S k) + m) with (S (S k + m)).
    rewrite run_epochs_step, E, R.
    split; [ reflexivity | ]. split; [ exact P' | ].
    split; [ rewrite B', B; reflexivity | ].
    replace (i + S k) with (S i + k) by lia.
    split; [ exact Sv' | ].
    intros e He. destruct (In' e He) as [H | H]; [ | right; exact H ].
    pose proof (epoch_body_saved a i (obs i) s) as Hb.
    rewrite E in Hb. destruct (Hb e H) as [H0 | ->]; [ left; exact H0 | right; lia ].
Qed.

End EpochLoopProperties.

(* ================================================================== *)
(** * Log names and checkpoint directories *)
(* ================================================================== *)

Section LoggingProperties.
Import Logging.
Local Open Scope string_scope.






(** X16. Without a model id nothing is restored, checkpoints are saved in
    model_dir/logname, and --reset_optimizer_states has no effect: the
    optimizer is the one built at setup. *)
Theorem fresh_run_ignores_optimizer_reset :
  forall (a : log_args) (now : string),
    (lower (model_id_arg a) =? "none") = true ->
    (lower (model_dir a) =? "none") = false ->
    let c := setup_checkpoints a now in
    saves c = true
    /\ restored_from c = None
    /\ save_dir c = Some (path_join (model_dir a) (fst (log_names a now)))
    /\ optimizer_reset c = false.
Proof.
  intros a now Hid Hdir. cbv zeta.
  unfold setup_checkpoints, log_names. rewrite Hid, Hdir. cbn [negb].
  destruct (logname_arg a) as [l | ]; rewrite String.eqb_refl;
    cbn [negb saves restored_from save_dir optimizer_reset fst];
    repeat split.
Qed.

End LoggingProperties.

(* ================================================================== *)
(** * Properties of split_lenses.py *)
(* ================================================================== *)

Section SplitLensesProperties.
Import SplitLenses.
Local Open Scope Z_scope.

Lemma num_shards_bounds (items examples_per_shard : Z) :
  0 < examples_per_shard ->
  0 <= items ->
  exists n,
    num_shards items examples_per_shard = Some n
    /\ (n - 1) * examples_per_shard < items <= n * examples_per_shard.
Proof.
  intros Heps Hitems. unfold num_shards.
  assert (Hne : (examples_per_shard =? 0) = false) by (apply Z.eqb_neq; lia).
  rewrite Hne. eexists. split; [ reflexivity | ].
  pose proof (Z.div_mod items examples_per_shard ltac:(lia)) as Hdm.
  pose proof (Z.mod_pos_bound items examples_per_shard Heps) as Hb.
  destruct (0 <? items mod examples_per_shard) eqn:E.
  - apply Z.ltb_lt in E. nia.
  - apply Z.ltb_ge in E. nia.
Qed.

(** X17. The number of shards is the number of records over the shard
    size, rounded up: the shards hold every record, and the last one is
    not empty.  A shard size of zero raises. *)
Theorem num_shards_rounds_up :
  (forall items, num_shards items 0 = None)
  /\ forall items examples_per_shard,
       0 < examples_per_shard ->
       0 <= items ->
       exists n,
         num_shards items examples_per_shard = Some n
         /\ (n - 1) * examples_per_shard < items <= n * examples_per_shard.
Proof.
  split; [ reflexivity | ].
  intros items eps Heps Hitems. apply num_shards_bounds; assumption.
Qed.

(** Membership in a range of positive step. *)
Lemma py_range_spec (start stop step k : Z) :
  0 < step ->
  exists l,
    py_range start stop step = Some l
    /\ (In k l <-> start <= k < stop /\ (k - start) mod step = 0).
Proof.
  intros Hstep. unfold py_range.
  assert (Hne : (step =? 0) = false) by (apply Z.eqb_neq; lia).
  assert (Hpos : (0 <? step) = true) by (apply Z.ltb_lt; lia).
  rewrite Hne, Hpos. eexists. split; [ reflexivity | ].
  set (q := (stop - start + step - 1) / step).
  pose proof (Z.div_mod (stop - start + step - 1) step ltac:(lia)) as Hdm.
  pose proof (Z.mod_pos_bound (stop - start + step - 1) step Hstep) as Hb.
  fold q in Hdm.
  rewrite in_map_iff. split.
  - intros (i & <- & Hi). apply in_seq in Hi.
    assert (Hiq : Z.of_nat i < q) by lia.
    split; [ split; [ nia | nia ] | ].
    replace (start + Z.of_nat i * step - start) with (Z.of_nat i * step) by lia.
    apply Z.mod_mul. lia.
  - intros ([Hlo Hhi] & Hm).
    apply Z.mod_divide in Hm; [ | lia ]. destruct Hm as [c Hc].
    assert (Hc0 : 0 <= c) by nia.
    exists (Z.to_nat c). split; [ rewrite Z2Nat.id by lia; lia | ].
    apply in_seq. split; [ lia | ].
    assert (c < q) by nia. lia.
Qed.

(** X19. Under SLURM, with workers numbered 1 to N_WORKERS, every shard
    is written by exactly one worker, and a worker writes shards of the
    data set only. *)
Theorem workers_share_the_shards :
  forall (n_workers shards k : Z),
    1 <= n_workers ->
    (0 <= k < shards ->
     exists w l,
       1 <= w <= n_workers
       /\ worker_shards w n_workers shards = Some l
       /\ In k l
       /\ forall w' l',
            1 <= w' <= n_workers ->
            worker_shards w' n_workers shards = Some l' ->
            In k l' -> w' = w)
    /\ (forall w l,
          1 <= w <= n_workers ->
          worker_shards w n_workers shards = Some l ->
          In k l -> 0 <= k < shards).
Proof.
  intros N shards k HN. split.
  - intros Hk.
    pose proof (Z.mod_pos_bound k N ltac:(lia)) as Hb.
    destruct (py_range_spec (k mod N + 1 - 1) shards N k ltac:(lia))
      as (l & Hl & Hin).
    exists (k mod N + 1), l.
    split; [ lia | ]. split; [ exact Hl | ].
    split.
    + apply Hin. split.
      * pose proof (Z.mod_le k N ltac:(lia) ltac:(lia)). lia.
      * replace (k - (k mod N + 1 - 1)) with (k - k mod N) by lia.
        rewrite Zminus_mod_idemp_r. rewrite Z.sub_diag. apply Z.mod_0_l. lia.
    + intros w' l' Hw' Hl' Hin'.
      destruct (py_range_spec (w' - 1) shards N k ltac:(lia)) as (l2 & Hl2 & Hin2).
      unfold worker_shards in Hl'. rewrite Hl2 in Hl'. injection Hl' as <-.
      apply Hin2 in Hin'. destruct Hin' as [[Hlo _] Hm].
      apply Z.mod_divide in Hm; [ | lia ]. destruct Hm as [c Hc].
      assert (E : k mod N = w' - 1).
      { replace k with (w' - 1 + c * N) by lia.
        rewrite Z.mod_add by lia. apply Z.mod_small. lia. }
      lia.
  - intros w l Hw Hl Hin.
    destruct (py_range_spec (w - 1) shards N k ltac:(lia)) as (l2 & Hl2 & Hin2).
    unfold worker_shards in Hl. rewrite Hl2 in Hl. injection Hl as <-.
    apply Hin2 in Hin. lia.
Qed.

(** X20. Outside SLURM the defaults are THIS_WORKER = 0 and N_WORKERS = 1:
    the loop then starts at shard -1, which is no shard of the data set,
    before it goes through every shard. *)
Theorem default_worker_starts_below_zero :
  forall (shards : Z),
    0 <= shards ->
    exists l,
      worker_shards 0 1 shards = Some l
      /\ In (-1) l
      /\ Z.of_nat (length l) = shards + 1
      /\ forall k, 0 <= k < shards -> In k l.
Proof.
  intros shards Hs.
  unfold worker_shards, py_range. cbn [Z.eqb Z.ltb Z.compare].
  eexists. split; [ reflexivity | ].
  replace ((shards - (0 - 1) + 1 - 1) / 1) with (shards + 1)
    by (rewrite Z.div_1_r; lia).
  split; [ | split ].
  - apply in_map_iff. exists 0%nat. split; [ reflexivity | ].
    apply in_seq. lia.
  - rewrite length_map, length_seq. lia.
  - intros k Hk. apply in_map_iff. exists (Z.to_nat (k + 1)).
    split; [ rewrite Z2Nat.id by lia; lia | ].
    apply in_seq. lia.
Qed.

End SplitLensesProperties.

Section ShardProperties.
Import SplitLenses.
Variable X : Type.

Lemma shards_of_tail (dataset : list X) (eps n : nat) :
  map (shard_records dataset eps) (seq 1 n)
  = map (shard_records (skipn eps dataset) eps) (seq 0 n).
Proof.
  rewrite <- seq_shift, map_map. apply map_ext. intros k.
  unfold shard_records, take, skip. rewrite skipn_skipn.
  f_equal. f_equal. cbn [Nat.mul]. lia.
Qed.

Lemma all_shards_covers (eps : nat) :
  forall (n : nat) (dataset : list X),
    length dataset <= n * eps ->
    all_shards dataset eps n = dataset.
Proof.
  unfold all_shards.
  induction n as [ | n IH]; intros dataset Hlen.
  - cbn in Hlen. destruct dataset; [ reflexivity | cbn in Hlen; lia ].
  - rewrite <- cons_seq. cbn [map concat].
    rewrite shards_of_tail, IH.
    + unfold shard_records, take, skip. cbn [Nat.mul skipn].
      apply firstn_skipn.
    + rewrite length_skipn. cbn [Nat.mul] in Hlen. lia.
Qed.

(** X18. Every record is written once: the training shards, file after
    file, are the first train_items records in their order, the
    validation shards are the records after them, and the two together
    are the data set, as long as it holds no more than total_items
    records. *)
Theorem shards_hold_every_record_once :
  forall (dataset : list X) (total_items train_items eps train_shards val_shards : nat),
    0 < eps ->
    train_items <= total_items ->
    length dataset <= total_items ->
    num_shards (Z.of_nat train_items) (Z.of_nat eps)
    = Some (Z.of_nat train_shards) ->
    num_shards (Z.of_nat total_items - Z.of_nat train_items) (Z.of_nat eps)
    = Some (Z.of_nat val_shards) ->
    let train_dataset := take train_items dataset in
    let val_dataset := skip train_items dataset in
    all_shards train_dataset eps train_shards = train_dataset
    /\ all_shards val_dataset eps val_shards = val_dataset
    /\ all_shards train_dataset eps train_shards
       ++ all_shards val_dataset eps val_shards = dataset.
Proof.
  intros dataset total_items train_items eps nt nv Heps Hle Hlen Ht Hv.
  cbv zeta.
  assert (Hbound : forall items n : Z,
            (0 <= items)%Z ->
            num_shards items (Z.of_nat eps) = Some n ->
            (items <= n * Z.of_nat eps)%Z).
  { intros items n Hi Hn.
    destruct (num_shards_bounds items (Z.of_nat eps) ltac:(lia) Hi)
      as (n' & Hn' & Hb).
    rewrite Hn in Hn'. injection Hn' as <-. lia. }
  assert (Et : all_shards (take train_items dataset) eps nt
               = take train_items dataset).
  { apply all_shards_covers. unfold take. rewrite length_firstn.
    assert (train_items <= nt * eps)
      by (apply Nat2Z.inj_le; rewrite Nat2Z.inj_mul;
          apply (Hbound _ _ (Nat2Z.is_nonneg train_items) Ht)).
    pose proof (Nat.le_min_l train_items (length dataset)). lia. }
  assert (Ev : all_shards (skip train_items dataset) eps nv
               = skip train_items dataset).
  { apply all_shards_covers. unfold skip. rewrite length_skipn.
    assert (total_items - train_items <= nv * eps).
    { apply Nat2Z.inj_le. rewrite Nat2Z.inj_mul, Nat2Z.inj_sub by exact Hle.
      apply (Hbound (Z.of_nat total_items - Z.of_nat train_items)%Z
               (Z.of_nat nv) ltac:(lia) Hv). }
    lia. }
  split; [ exact Et | ]. split; [ exact Ev | ].
  rewrite Et, Ev. apply firstn_skipn.
Qed.

End ShardProperties.

(* ================================================================== *)
(** * The further properties at the concrete inputs *)
(* ================================================================== *)

Lemma block_call_rejects_unsplittable_state_at_example :
  Block.ConvGRUBlock_call Examples.conv2d Examples.cell Examples.gru_block
    Examples.inputs Examples.inputs = None
  /\ Block.ConvGRUPlusBlock_call Examples.conv2d Examples.cell Examples.gru_block
       Examples.inputs Examples.inputs = None.
Proof.
  apply (block_call_rejects_unsplittable_state nat unit Examples.conv2d
           Examples.cell Examples.cell Examples.gru_block Examples.inputs
           Examples.inputs).
  right. reflexivity.
Defined.

Lemma new_state_splits_into_cell_outputs_at_example :
  exists xt ht ht_11' ht_12',
    Block.ConvGRUBlock_call Examples.conv2d Examples.cell Examples.gru_block
      Examples.inputs Examples.state = Some (xt, ht)
    /\ TF.split2 ht 3 = Some (ht_11', ht_12')
    /\ TF.shape ht_12' = TF.shape xt
    /\ forall i j k l,
         l < 2 ->
         TF.val ht_11' [i; j; k; l]
         = TF.val (fst (Examples.cell (Block.gru1 Examples.gru_block)
                          Examples.inputs (Block.first_half 2 Examples.state)))
             [i; j; k; l]
         /\ TF.val ht_12' [i; j; k; l] = TF.val xt [i; j; k; l].
Proof.
  apply (new_state_splits_into_cell_outputs nat unit Examples.conv2d
           Examples.cell Examples.gru_block Examples.inputs Examples.state
           1 2 2 2).
  - reflexivity.
  - intros x h Hs. exact Hs.
  - intros x h Hs. exact Hs.
Defined.

Lemma idle_cells_keep_the_state_at_example :
  exists xt ht,
    Block.ConvGRUBlock_call Examples.conv2d Examples.cell Examples.gru_block
      Examples.inputs Examples.state = Some (xt, ht)
    /\ TF.shape ht = TF.shape Examples.state
    /\ forall i j k l,
         l < 2 * 2 -> TF.val ht [i; j; k; l] = TF.val Examples.state [i; j; k; l].
Proof.
  apply (idle_cells_keep_the_state nat unit Examples.conv2d Examples.cell
           Examples.gru_block Examples.inputs Examples.state 1 2 2 2).
  - reflexivity.
  - intros x s. reflexivity.
  - intros x s. reflexivity.
Defined.

Lemma plain_layer_ignores_training_and_store_at_example :
  exists y,
    Encoder.ConvEncodingLayer_call Examples.conv2d
      MoreExamples.batch_normalization MoreExamples.spatial_dropout
      MoreExamples.get_activation
      (Encoder.ConvEncodingLayer_init MoreExamples.fresh Encoder.default_config)
      Examples.inputs true 0 = Some (y, 0)
    /\ Encoder.ConvEncodingLayer_call Examples.conv2d
         MoreExamples.batch_normalization MoreExamples.spatial_dropout
         MoreExamples.get_activation
         (Encoder.ConvEncodingLayer_init MoreExamples.fresh Encoder.default_config)
         Examples.inputs false 7 = Some (y, 7).
Proof.
  apply (plain_layer_ignores_training_and_store nat unit nat Examples.conv2d
           MoreExamples.batch_normalization MoreExamples.spatial_dropout
           MoreExamples.get_activation MoreExamples.fresh Encoder.default_config);
    reflexivity.
Defined.

Lemma exact_trace_costs_nothing_at_example :
  exists w_source w_kappa,
    TrainRim.ws Examples.weights Examples.batch = Some w_source
    /\ TrainRim.wk Examples.weights Examples.batch = Some w_kappa
    /\ (forall b h w c,
          b < 1 -> h < 1 -> w < 1 -> c < 2 ->
          (0 <= TF.val w_source [b; h; w; c])%R)
    /\ (forall b h w c,
          b < 1 -> h < 1 -> w < 1 -> c < 2 ->
          (0 <= TF.val w_kappa [b; h; w; c])%R)
    /\ TrainRim.train_step Examples.identity_link Examples.identity_link
         Examples.weights 1%Z Examples.batch Examples.batch
         MoreExamples.exact_series MoreExamples.exact_series = Some 0%R.
Proof.
  apply (exact_trace_costs_nothing "uniform" TrainRim.SqrtW TrainRim.Uniform
           2 1 1 1 2 1 1 2 Examples.weights
           Examples.identity_link Examples.identity_link 1%Z
           Examples.batch Examples.batch
           MoreExamples.exact_series MoreExamples.exact_series);
    try reflexivity; try discriminate.
  - intros b _. split.
    + cbn. lra.
    + intros h w c _ _ _. cbn. lra.
  - intros b _. split.
    + cbn. rewrite sqrt_1. lra.
    + intros h w c _ _ _. cbn. lra.
Defined.

Lemma cost_is_not_negative_at_example :
  exists cost,
    TrainRim.train_step Examples.identity_link Examples.identity_link
      Examples.weights 1%Z Examples.batch Examples.batch
      Examples.series Examples.series = Some cost
    /\ (0 <= cost)%R.
Proof.
  apply (cost_is_not_negative TrainRim.TUniform TrainRim.SqrtW TrainRim.Uniform
           2 1 1 1 2 1 1 2 Examples.weights
           Examples.identity_link Examples.identity_link 1%Z
           Examples.batch Examples.batch Examples.series Examples.series);
    try reflexivity; try lia.
  - intros b _. split.
    + cbn. lra.
    + intros h w c _ _ _. cbn. lra.
  - intros b _. split.
    + cbn. rewrite sqrt_1. lra.
    + intros h w c _ _ _. cbn. lra.
Defined.

Lemma later_steps_weigh_more_at_example :
  exists w,
    TrainRim.time_weights "linear" 3 = inr w
    /\ (TF.val w [0%nat] < TF.val w [(0 + 1)%nat])%R.
Proof.
  apply (later_steps_weigh_more TrainRim.TLinear 3 0). lia.
Defined.

Lemma zero_checkpoint_period_raises_at_example :
  fst (TrainRim.training_loop MoreExamples.zero_period_args Examples.inf_epochs)
  = Some TrainRim.ZeroDivisionError
  /\ TrainRim.saved
       (snd (TrainRim.training_loop MoreExamples.zero_period_args
               Examples.inf_epochs)) = [].
Proof.
  apply (zero_checkpoint_period_raises MoreExamples.zero_period_args
           Examples.inf_epochs);
    try reflexivity. cbn. lia.
Defined.

Lemma patience_runs_out_at_example :
  exists s',
    TrainRim.run_epochs MoreExamples.patient_args Examples.inf_epochs
      (seq 0 (1 + 2)) (TrainRim.initial_state MoreExamples.patient_args)
    = (None, s')
    /\ TrainRim.patience s' = TrainRim.Finite 0
    /\ TrainRim.best_loss s'
       = TrainRim.best_loss (TrainRim.initial_state MoreExamples.patient_args)
    /\ (TrainRim.save_checkpoint MoreExamples.patient_args = true ->
        In (0 + 0) (TrainRim.saved s'))
    /\ forall e,
         In e (TrainRim.saved s') ->
         In e (TrainRim.saved (TrainRim.initial_state MoreExamples.patient_args))
         \/ e <= 0 + 0.
Proof.
  apply (patience_runs_out MoreExamples.patient_args Examples.inf_epochs 0 0 2
           (TrainRim.initial_state MoreExamples.patient_args)).
  - reflexivity.
  - reflexivity.
  - intros _. discriminate.
  - intros j _. repeat split; reflexivity.
Defined.


Lemma fresh_run_ignores_optimizer_reset_at_example :
  Logging.saves
    (Logging.setup_checkpoints MoreExamples.from_scratch "260101120000") = true
  /\ Logging.restored_from
       (Logging.setup_checkpoints MoreExamples.from_scratch "260101120000") = None
  /\ Logging.save_dir
       (Logging.setup_checkpoints MoreExamples.from_scratch "260101120000")
     = Some (Logging.path_join "/models"
               (fst (Logging.log_names MoreExamples.from_scratch "260101120000")))
  /\ Logging.optimizer_reset
       (Logging.setup_checkpoints MoreExamples.from_scratch "260101120000")
     = false.
Proof.
  apply (fresh_run_ignores_optimizer_reset MoreExamples.from_scratch
           "260101120000");
    reflexivity.
Defined.

Lemma shards_hold_every_record_once_at_example :
  SplitLenses.all_shards (SplitLenses.take 3 MoreExamples.records) 2 2
  = SplitLenses.take 3 MoreExamples.records
  /\ SplitLenses.all_shards (SplitLenses.skip 3 MoreExamples.records) 2 1
     = SplitLenses.skip 3 MoreExamples.records
  /\ SplitLenses.all_shards (SplitLenses.take 3 MoreExamples.records) 2 2
     ++ SplitLenses.all_shards (SplitLenses.skip 3 MoreExamples.records) 2 1
     = MoreExamples.records.
Proof.
  apply (shards_hold_every_record_once nat MoreExamples.records 5 3 2 2 1);
    try reflexivity; cbn; lia.
Defined.

Lemma workers_share_the_shards_at_example :
  ((0 <= 5 < 7)%Z ->
   exists w l,
     (1 <= w <= 3)%Z
     /\ SplitLenses.worker_shards w 3 7 = Some l
     /\ In 5%Z l
     /\ forall w' l',
          (1 <= w' <= 3)%Z ->
          SplitLenses.worker_shards w' 3 7 = Some l' ->
          In 5%Z l' -> w' = w)
  /\ (forall w l,
        (1 <= w <= 3)%Z ->
        SplitLenses.worker_shards w 3 7 = Some l ->
        In 5%Z l -> (0 <= 5 < 7)%Z).
Proof.
  apply (workers_share_the_shards 3 7 5). lia.
Defined.

Lemma default_worker_starts_below_zero_at_example :
  exists l,
    SplitLenses.worker_shards 0 1 2 = Some l
    /\ In (-1)%Z l
    /\ Z.of_nat (length l) = (2 + 1)%Z
    /\ forall k, (0 <= k < 2)%Z -> In k l.
Proof.
  apply (default_worker_starts_below_zero 2). lia.
Defined.

(* ================================================================== *)
(** * The per-step weights in DTYPE do not sum to 1 *)
(* ================================================================== *)

Section DtypeProperties.
Import Dtype.

Lemma power_of_two_mod_five (k : nat) : ((2 ^ Z.of_nat k) mod 5 <> 0)%Z.
Proof.
  induction k as [ | k IH].
  - cbn. discriminate.
  - rewrite Nat2Z.inj_succ, Z.pow_succ_r by lia.
    set (x := (2 ^ Z.of_nat k)%Z) in *. Z.div_mod_to_equations. lia.
Qed.

(** No binary float is a tenth. *)
Lemma no_float_is_a_tenth (x : binary_float) : ~ (10 * value x == 1)%Q.
Proof.
  unfold value. destruct (0 <=? exponent x)%Z eqn:E.
  - set (z := (mantissa x * 2 ^ exponent x)%Z).
    unfold Qeq, Qmult, inject_Z. cbn [Qnum Qden Pos.mul]. lia.
  - apply Z.leb_gt in E.
    assert (Hk : (- exponent x = Z.of_nat (Z.to_nat (- exponent x)))%Z)
      by (rewrite Z2Nat.id; lia).
    pose proof (power_of_two_mod_five (Z.to_nat (- exponent x))) as Hp.
    rewrite <- Hk in Hp.
    assert (Hpos : (0 < 2 ^ (- exponent x))%Z) by (apply Z.pow_pos_nonneg; lia).
    unfold Qeq. cbn [Qmult Qnum Qden Pos.mul].
    rewrite Z2Pos.id by exact Hpos.
    set (p := (2 ^ (- exponent x))%Z) in *. Z.div_mod_to_equations. lia.
Qed.

(** C9, as stated: with ten steps under 'uniform' every weight is the one
    float the division of 1 by 10 returns, and ten times a float is never
    1, whatever the precision and the rounding of DTYPE. *)
Lemma ten_uniform_weights_miss_one :
  ~ exists dtype : arithmetic,
      (exact_sum (uniform_time_weights dtype 10) == 1)%Q.
Proof.
  intros [dtype H].
  apply (no_float_is_a_tenth (divide dtype (one dtype) (of_int dtype 10))).
  rewrite <- H. unfold exact_sum, uniform_time_weights.
  cbn [repeat map fold_right Z.of_nat Pos.of_succ_nat Pos.succ].
  ring.
Qed.

End DtypeProperties.
